(** * Phone status tracker backend: a shallow embedding of [main.py]

    The HTTP handlers of [main.py] are embedded as computations in a small
    state-and-exception monad over the state of the process: the store
    handle [db], the one collection behind it, the clock, and the trace of
    calls made to the store.  Everything the handlers import from outside
    the file (the schema class, the identifier constructor, the regular
    expression engine of the store, the rendering of timestamps) is a field
    of the class [Env]. *)

From Stdlib Require Import ZArith Ascii Bool Lia.
From stdpp Require Import base decidable option list gmap strings fin_maps pretty.

(** ** Values and documents *)

(** A 12-byte store identifier ([bson.ObjectId]), as a number. *)
Definition oid := N.

(** The values a field of a stored document holds: [None], [str],
    [datetime] and [ObjectId]. *)
Inductive value :=
| VNull
| VStr (s : string)
| VTime (t : Z)
| VOid (o : oid).

#[global] Instance value_eq_dec : EqDecision value.
Proof. solve_decision. Defined.

(** A document (a Python [dict] with string keys). *)
Abbreviation doc := (gmap string value).

(** ** Request shapes *)

(** [Literal["unknown", "has_fb", "no_fb", "review"]] *)
Inductive status := unknown | has_fb | no_fb | review.

Definition status_str (s : status) : string :=
  match s with
  | unknown => "unknown"
  | has_fb => "has_fb"
  | no_fb => "no_fb"
  | review => "review"
  end.

Module PhoneIn.
Record t := mk {
  phone : string;
  country : option string;
  status : status;
  note : option string
}.
End PhoneIn.

Module PhoneUpdate.
Record t := mk {
  phone : option string;
  country : option string;
  status : option status;
  note : option string
}.
End PhoneUpdate.

Module BulkPhones.
Record t := mk { items : list PhoneIn.t }.
End BulkPhones.

(** A member of a JSON request body: left out, [null], or carrying a value. *)
Inductive member (A : Type) :=
| Absent
| Null
| Given (a : A).
Arguments Absent {A}.
Arguments Null {A}.
Arguments Given {A} a.

(** The JSON body of a PATCH request, before shape validation. *)
Module PatchBody.
Record t := mk {
  phone : member string;
  country : member string;
  status : member status;
  note : member string
}.
End PatchBody.

(** A field declared [Optional[...] = None]: a member left out takes the
    default [None], and [null] is [None]. *)
Definition optional {A} (m : member A) : option A :=
  match m with
  | Absent => None
  | Null => None
  | Given a => Some a
  end.

(** Shape validation of the PATCH body into [PhoneUpdate]. *)
Definition parse_PhoneUpdate (b : PatchBody.t) : PhoneUpdate.t :=
  PhoneUpdate.mk (optional (PatchBody.phone b)) (optional (PatchBody.country b))
                 (optional (PatchBody.status b)) (optional (PatchBody.note b)).

Definition opt_value (o : option string) : value :=
  match o with
  | Some s => VStr s
  | None => VNull
  end.

(** [item.model_dump()] for [PhoneIn]: every field, [None] included. *)
Definition model_dump (item : PhoneIn.t) : doc :=
  <["phone" := VStr (PhoneIn.phone item)]>
  (<["country" := opt_value (PhoneIn.country item)]>
  (<["status" := VStr (status_str (PhoneIn.status item))]>
  (<["note" := opt_value (PhoneIn.note item)]> ∅))).

(** Adds [k: v] to a dict when the field is not [None]. *)
Definition set_some (k : string) (o : option string) (d : doc) : doc :=
  match o with
  | Some s => <[k := VStr s]> d
  | None => d
  end.

(** [data.model_dump(exclude_none=True)] for [PhoneUpdate]. *)
Definition model_dump_exclude_none (data : PhoneUpdate.t) : doc :=
  set_some "phone" (PhoneUpdate.phone data)
  (set_some "country" (PhoneUpdate.country data)
  (set_some "status" (status_str <$> PhoneUpdate.status data)
  (set_some "note" (PhoneUpdate.note data) ∅))).

(** ** Queries of the store *)

(** The condition on one field: equality with a value, or
    [{"$regex": pattern, "$options": options}]. *)
Inductive cond :=
| Eq (v : value)
| Regex (pattern options : string).

(** One entry of a filter dict: [{k: c}] or [{"$or": [{k1: c1}, ...]}]. *)
Inductive clause :=
| Field (k : string) (c : cond)
| Or (alts : list (string * cond)).

(** A filter dict ([flt]); its entries are combined with logical and. *)
Definition query := list clause.

(** ** What the handlers import *)

Class Env := {
  (** the constructor of [schemas.PhoneNumber], applied to the dumped
      fields as keyword arguments: [true] when the model validates,
      [false] when it raises [ValidationError]. *)
  PhoneNumberSchema : doc -> bool;
  (** [bson.ObjectId], [None] when the import failed; the constructor
      raises [InvalidId] ([None] here) on a string that is not in the
      identifier format. *)
  ObjectId : option (string -> option oid);
  (** [str(oid)] *)
  oid_str : oid -> string;
  (** [datetime.isoformat()] and [str(datetime)] *)
  isoformat : Z -> string;
  datetime_str : Z -> string;
  (** The regular expression engine of the store: compiling a pattern with
      options ([None] when the store rejects the pattern), and searching a
      string for a match of a compiled pattern. *)
  regex : Type;
  re_compile : string -> string -> option regex;
  re_search : regex -> string -> bool;
  (** The identifier the driver generates for a document inserted into a
      collection, and whether the store fails to insert it. *)
  gen_oid : list doc -> doc -> oid;
  insert_fault : list doc -> doc -> bool
}.

(** ** State, exceptions and the monad of the handlers *)

(** A call made to the store. *)
Inductive call :=
| InsertOne (d : doc)
| Find (flt : query) (limit : option Z)
| UpdateOne (flt : query) (set : doc)
| DeleteOne (flt : query).

Record state := mkState {
  (** [db is not None] *)
  db : bool;
  (** the documents of [db["phonenumber"]], in the store's natural order *)
  phonenumber : list doc;
  (** [datetime.now(timezone.utc)], one reading for the whole request *)
  clock : Z;
  (** the calls made to the store so far, oldest first *)
  calls : list call
}.

Inductive exn :=
| HTTPException (status_code : Z) (detail : string)
| RequestValidationError
| ValidationError
| OperationFailure.

Inductive result (A : Type) :=
| Ok (a : A)
| Raise (e : exn).
Arguments Ok {A} a.
Arguments Raise {A} e.

Definition M (A : Type) : Type := state -> result A * state.

Definition ret {A} (a : A) : M A := λ s, (Ok a, s).

Definition bind {A B} (m : M A) (f : A -> M B) : M B := λ s,
  match m s with
  | (Ok a, s') => f a s'
  | (Raise e, s') => (Raise e, s')
  end.

Declare Scope M_scope.
Delimit Scope M_scope with M.
Notation "x ← y ; z" := (bind y (λ x, z))
  (at level 20, y at level 100, z at level 200, only parsing) : M_scope.
Notation "x ;; z" := (bind x (λ _, z))
  (at level 100, z at level 200, only parsing, right associativity) : M_scope.
Local Open Scope M_scope.

Definition raise {A} (e : exn) : M A := λ s, (Raise e, s).

(** [try: m except Exception: ...]: the outcome of [m] as a value. *)
Definition try {A} (m : M A) : M (result A) := λ s,
  match m s with
  | (r, s') => (Ok r, s')
  end.

Definition get_db : M bool := λ s, (Ok (db s), s).
Definition now : M Z := λ s, (Ok (clock s), s).
Definition record_call (c : call) : M unit := λ s,
  (Ok tt, mkState (db s) (phonenumber s) (clock s) (calls s ++ [c])).
Definition get_collection : M (list doc) := λ s, (Ok (phonenumber s), s).
Definition put_collection (l : list doc) : M unit := λ s,
  (Ok tt, mkState (db s) l (clock s) (calls s)).

(** The status of the HTTP response: a request that fails shape
    validation is answered with 422, and an exception that is not an
    [HTTPException] with 500. *)
Definition http_status {A} (r : result A) : Z :=
  match r with
  | Ok _ => 200%Z
  | Raise (HTTPException c _) => c
  | Raise RequestValidationError => 422%Z
  | Raise _ => 500%Z
  end.

Definition client_error (c : Z) : bool := ((400 <=? c) && (c <? 500))%Z.
Definition server_error (c : Z) : bool := ((500 <=? c) && (c <? 600))%Z.

(** ** The store *)

Section Store.
Context `{Env}.

(** [str(v)] *)
Definition py_str (v : value) : string :=
  match v with
  | VNull => "None"
  | VStr s => s
  | VTime t => datetime_str t
  | VOid o => oid_str o
  end.

(** Whether the value of a field (when the document has the field) meets
    a condition.  Equality with [null] also holds of a missing field; a
    regular expression only matches a string. *)
Definition cond_holds (c : cond) (v : option value) : bool :=
  match c with
  | Eq w =>
      match v with
      | Some x => bool_decide (x = w)
      | None => bool_decide (w = VNull)
      end
  | Regex p o =>
      match v, re_compile p o with
      | Some (VStr s), Some r => re_search r s
      | _, _ => false
      end
  end.

Definition clause_holds (d : doc) (c : clause) : bool :=
  match c with
  | Field k c => cond_holds c (d !! k)
  | Or alts => existsb (λ a, cond_holds (snd a) (d !! fst a)) alts
  end.

Definition matches (flt : query) (d : doc) : bool :=
  forallb (clause_holds d) flt.

(** The store rejects a query one of whose patterns does not compile. *)
Definition cond_valid (c : cond) : bool :=
  match c with
  | Eq _ => true
  | Regex p o =>
      match re_compile p o with
      | Some _ => true
      | None => false
      end
  end.

Definition clause_valid (c : clause) : bool :=
  match c with
  | Field _ c => cond_valid c
  | Or alts => forallb (λ a, cond_valid (snd a)) alts
  end.

Definition query_valid (flt : query) : bool := forallb clause_valid flt.

(** The operations of [db[COLLECTION]] the application calls. *)

(** [find(flt)], with [.limit(n)] when a limit is given. *)
Definition find (flt : query) (limit : option Z) : M (list doc) :=
  record_call (Find flt limit);;
  if query_valid flt then
    docs ← get_collection;
    let found := List.filter (matches flt) docs in
    ret (match limit with
          | Some n => take (Z.to_nat n) found
          | None => found
          end)
  else raise OperationFailure.

(** [insert_one(d)]: returns [inserted_id]. *)
Definition insert_one (d : doc) : M oid :=
  record_call (InsertOne d);;
  docs ← get_collection;
  if insert_fault docs d then raise OperationFailure
  else
    let o := gen_oid docs d in
    put_collection (docs ++ [<["_id" := VOid o]> d]);;
    ret o.

Record UpdateResult := { matched_count : nat; modified_count : nat }.

(** [{"$set": set}] applied to the first document that matches. *)
Fixpoint update_first (flt : query) (set : doc) (docs : list doc)
  : list doc * UpdateResult :=
  match docs with
  | [] => ([], {| matched_count := 0; modified_count := 0 |})
  | d :: rest =>
      if matches flt d then
        let d' := set ∪ d in
        (d' :: rest,
         {| matched_count := 1;
            modified_count := if decide (d' = d) then 0 else 1 |})
      else
        let '(rest', r) := update_first flt set rest in
        (d :: rest', r)
  end.

(** [update_one(flt, {"$set": set})] *)
Definition update_one (flt : query) (set : doc) : M UpdateResult :=
  record_call (UpdateOne flt set);;
  if query_valid flt then
    docs ← get_collection;
    let '(docs', r) := update_first flt set docs in
    put_collection docs';;
    ret r
  else raise OperationFailure.

Record DeleteResult := { deleted_count : nat }.

Fixpoint delete_first (flt : query) (docs : list doc)
  : list doc * DeleteResult :=
  match docs with
  | [] => ([], {| deleted_count := 0 |})
  | d :: rest =>
      if matches flt d then (rest, {| deleted_count := 1 |})
      else
        let '(rest', r) := delete_first flt rest in
        (d :: rest', r)
  end.

(** [delete_one(flt)] *)
Definition delete_one (flt : query) : M DeleteResult :=
  record_call (DeleteOne flt);;
  if query_valid flt then
    docs ← get_collection;
    let '(docs', r) := delete_first flt docs in
    put_collection docs';;
    ret r
  else raise OperationFailure.

(** Modelled from the spec: [database.create_document], which is not
    among the sources.  The store assigns the identifier at creation,
    [created_at] is set once at insert, and the identifier is handed to
    clients as a string. *)
Definition create_document (data : PhoneIn.t) : M string :=
  t ← now;
  o ← insert_one (<["created_at" := VTime t]> (model_dump data));
  ret (oid_str o).

(** Modelled from the spec: [database.get_documents], which is not among
    the sources.  The records that match, in the natural order of the
    store; the limit truncates only. *)
Definition get_documents (flt : query) (limit : Z) : M (list doc) :=
  find flt (Some limit).
End Store.

(** ** The CSV writer

    [csv.DictWriter] with the default dialect: fields separated by a
    comma, records ended by CR LF, and a field quoted only when it holds a
    comma, a quote, a CR or a LF, each quote inside it doubled. *)

Definition comma : ascii := ","%char.
Definition dquote : ascii := "034"%char.
Definition CR : ascii := "013"%char.
Definition LF : ascii := "010"%char.

Definition special (c : ascii) : bool :=
  Ascii.eqb c comma || Ascii.eqb c dquote || Ascii.eqb c CR || Ascii.eqb c LF.

Fixpoint has_special (s : string) : bool :=
  match s with
  | EmptyString => false
  | String c r => special c || has_special r
  end.

Fixpoint double_quotes (s : string) : string :=
  match s with
  | EmptyString => EmptyString
  | String c r =>
      if Ascii.eqb c dquote then String dquote (String dquote (double_quotes r))
      else String c (double_quotes r)
  end.

Definition csv_field (s : string) : string :=
  if has_special s then String dquote (double_quotes s +:+ String dquote EmptyString)
  else s.

Fixpoint join_fields (fields : list string) : string :=
  match fields with
  | [] => EmptyString
  | [f] => f
  | f :: rest => f +:+ String comma (join_fields rest)
  end.

Definition lineterminator : string := String CR (String LF EmptyString).

(** [writer.writerow(fields)]: a record that would be empty, which is the
    record of one empty field, is written as a pair of quotes. *)
Definition writerow (fields : list string) : string :=
  match fields with
  | [EmptyString] => String dquote (String dquote lineterminator)
  | _ => join_fields (map csv_field fields) +:+ lineterminator
  end.

(** The text in the buffer after [writer.writerow] on each row in turn. *)
Fixpoint writerows (rows : list (list string)) : string :=
  match rows with
  | [] => EmptyString
  | r :: rest => writerow r +:+ writerows rest
  end.

(** ** Reading CSV

    The records a CSV text denotes, read the way the format is defined
    (RFC 4180): fields are separated by commas and records are ended by
    CR LF; a field that starts with a quote runs to the next quote that is
    not doubled, and may hold commas, CR, LF and, doubled, quotes.  An
    empty line is a record of no field.  [None] when the text is not
    well-formed. *)

Inductive mode :=
| Start     (** at the start of a field *)
| Plain     (** inside a field that is not quoted *)
| Quoted    (** inside a quoted field *)
| Closing.  (** after a quote met inside a quoted field *)

Definition snoc (s : string) (c : ascii) : string := s +:+ String c EmptyString.

Fixpoint read (m : mode) (field : string) (fields : list string) (inp : string)
  : option (list (list string)) :=
  match inp with
  | EmptyString =>
      match m, fields with
      | Start, [] => Some []
      | _, _ => None
      end
  | String c rest =>
      let end_record (record : list string) :=
        match rest with
        | String c' rest' =>
            if Ascii.eqb c' LF then cons record <$> read Start EmptyString [] rest'
            else None
        | EmptyString => None
        end in
      match m with
      | Start =>
          if Ascii.eqb c dquote then read Quoted EmptyString fields rest
          else if Ascii.eqb c comma then read Start EmptyString (fields ++ [EmptyString]) rest
          else if Ascii.eqb c CR then
            end_record (match fields with
                        | [] => []
                        | _ => fields ++ [EmptyString]
                        end)
          else if Ascii.eqb c LF then None
          else read Plain (String c EmptyString) fields rest
      | Plain =>
          if Ascii.eqb c dquote then None
          else if Ascii.eqb c comma then read Start EmptyString (fields ++ [field]) rest
          else if Ascii.eqb c CR then end_record (fields ++ [field])
          else if Ascii.eqb c LF then None
          else read Plain (snoc field c) fields rest
      | Quoted =>
          if Ascii.eqb c dquote then read Closing field fields rest
          else read Quoted (snoc field c) fields rest
      | Closing =>
          if Ascii.eqb c dquote then read Quoted (snoc field c) fields rest
          else if Ascii.eqb c comma then read Start EmptyString (fields ++ [field]) rest
          else if Ascii.eqb c CR then end_record (fields ++ [field])
          else None
      end
  end.

Definition read_csv (text : string) : option (list (list string)) :=
  read Start EmptyString [] text.

(** What the reader does once a field is complete, on the input that
    follows it: a comma starts the next field, CR LF ends the record. *)
Definition close (field : string) (fields : list string) (inp : string)
  : option (list (list string)) :=
  match inp with
  | String c rest =>
      if Ascii.eqb c comma then read Start EmptyString (fields ++ [field]) rest
      else if Ascii.eqb c CR then
        match rest with
        | String c' rest' =>
            if Ascii.eqb c' LF
            then cons (fields ++ [field]) <$> read Start EmptyString [] rest'
            else None
        | EmptyString => None
        end
      else None
  | EmptyString => None
  end.

(** The input goes on with a comma or with a CR. *)
Definition at_delimiter (inp : string) : Prop :=
  ∃ rest, inp = String comma rest ∨ inp = String CR rest.

(** ** The handlers *)

(** What a handler returns. *)
Inductive response :=
| Items (items : list doc)
| Id (id : string)
| Inserted (inserted : list string) (count : nat)
| Updated (updated : nat)
| Deleted (deleted : nat)
| Text (body : string).

Section Handlers.
Context `{Env}.

(** The name of the one collection, [phonenumber] in the state. *)
Definition COLLECTION : string := "phonenumber".

(** [if db is None: raise HTTPException(status_code=500, ...)] *)
Definition require_db : M unit :=
  d ← get_db;
  if d then ret tt
  else raise (HTTPException 500 "Database not available").

(** [if s:] for an [Optional[str]]: neither [None] nor empty. *)
Definition truthy (o : option string) : option string :=
  match o with
  | Some EmptyString => None
  | Some s => Some s
  | None => None
  end.

(** The filter [list_phones] and [export_phones] build. *)
Definition build_filter (status q : option string) : query :=
  match truthy status with
  | Some st => [Field "status" (Eq (VStr st))]
  | None => []
  end ++
  match truthy q with
  | Some q =>
      [Or [("phone", Regex q "i"); ("note", Regex q "i"); ("country", Regex q "i")]]
  | None => []
  end.

Definition stamp (k : string) (d : doc) : doc :=
  match d !! k with
  | Some (VTime t) => <[k := VStr (isoformat t)]> d
  | _ => d
  end.

(** The loop body of [list_phones]: [_id] becomes the string [id], and
    the timestamps become ISO-8601 strings. *)
Definition render (d : doc) : doc :=
  let id := py_str (default (VStr EmptyString) (d !! "_id")) in
  stamp "updated_at" (stamp "created_at" (<["id" := VStr id]> (delete "_id" d))).

Definition list_phones (status q : option string) (limit : Z) : M response :=
  require_db;;
  let flt := build_filter status q in
  docs ← get_documents flt limit;
  ret (Items (map render docs)).

(** The parameter [limit: Optional[int] = Query(500, ge=1, le=5000)]:
    500 when the request has none, and a request validation error
    outside the bounds. *)
Definition Query_limit (limit : option Z) : M Z :=
  match limit with
  | None => ret 500%Z
  | Some n =>
      if ((1 <=? n) && (n <=? 5000))%Z then ret n
      else raise RequestValidationError
  end.

(** The GET route on the collection: the parameters, then the handler. *)
Definition get_phones (status q : option string) (limit : option Z) : M response :=
  n ← Query_limit limit;
  list_phones status q n.

(** The schema class applied to [item.model_dump()]. *)
Definition validate (item : PhoneIn.t) : M unit :=
  if PhoneNumberSchema (model_dump item) then ret tt
  else raise ValidationError.

Definition add_phone (item : PhoneIn.t) : M response :=
  require_db;;
  validate item;;
  new_id ← create_document item;
  ret (Id new_id).

(** The [for] loop of [add_phones_bulk]. *)
Fixpoint bulk_loop (items : list PhoneIn.t) (inserted : list string)
  : M (list string) :=
  match items with
  | [] => ret inserted
  | item :: rest =>
      r ← try (validate item;; create_document item);
      match r with
      | Ok new_id => bulk_loop rest (inserted ++ [new_id])
      | Raise _ => bulk_loop rest inserted
      end
  end.

Definition add_phones_bulk (payload : BulkPhones.t) : M response :=
  require_db;;
  inserted ← bulk_loop (BulkPhones.items payload) [];
  ret (Inserted inserted (length inserted)).

(** The checks shared by [update_phone] and [delete_phone]. *)
Definition parse_id (item_id : string) : M oid :=
  match ObjectId with
  | None => raise (HTTPException 500 "ObjectId not available")
  | Some mk =>
      match mk item_id with
      | Some o => ret o
      | None => raise (HTTPException 400 "Invalid id")
      end
  end.

Definition update_phone (item_id : string) (data : PhoneUpdate.t) : M response :=
  require_db;;
  o ← parse_id item_id;
  let update_doc := model_dump_exclude_none data in
  if decide (update_doc = ∅) then ret (Updated 0)
  else
    t ← now;
    let update_doc := <["updated_at" := VTime t]> update_doc in
    res ← update_one [Field "_id" (Eq (VOid o))] update_doc;
    ret (Updated (modified_count res)).

Definition delete_phone (item_id : string) : M response :=
  require_db;;
  o ← parse_id item_id;
  res ← delete_one [Field "_id" (Eq (VOid o))];
  ret (Deleted (deleted_count res)).

(** A value as the CSV writer renders it: [None] as the empty string,
    anything that is not a string through [str]. *)
Definition csv_cell (v : value) : string :=
  match v with
  | VNull => EmptyString
  | _ => py_str v
  end.

Definition headers : list string := ["phone"; "country"; "status"; "note"].

(** [r.get(k, EmptyString)] for each header, as the writer renders it. *)
Definition row_cells (r : doc) : list string :=
  map (λ k, csv_cell (default (VStr EmptyString) (r !! k))) headers.

Definition export_phones (status q : option string) : M response :=
  require_db;;
  let flt := build_filter status q in
  rows ← find flt None;
  ret (Text (writerow headers +:+ writerows (map row_cells rows))).

(** The PATCH route: shape validation of the body, then the handler. *)
Definition patch_phone (item_id : string) (body : PatchBody.t) : M response :=
  update_phone item_id (parse_PhoneUpdate body).
End Handlers.

(** ** Case-insensitive substring search *)

Definition lower (c : ascii) : ascii :=
  let n := nat_of_ascii c in
  if (65 <=? n)%nat && (n <=? 90)%nat then ascii_of_nat (n + 32) else c.

Definition eqb_ci (a b : ascii) : bool := Ascii.eqb (lower a) (lower b).

Fixpoint prefix_ci (q s : string) : bool :=
  match q, s with
  | EmptyString, _ => true
  | String a q', String b s' => eqb_ci a b && prefix_ci q' s'
  | String _ _, EmptyString => false
  end.

(** [q] occurs in [s], letter case ignored. *)
Fixpoint contains_ci (q s : string) : bool :=
  prefix_ci q s ||
  match s with
  | EmptyString => false
  | String _ s' => contains_ci q s'
  end.

(** [q] occurs, letter case ignored, in the field [k] of [d]. *)
Definition field_contains (q : string) (d : doc) (k : string) : bool :=
  match d !! k with
  | Some (VStr s) => contains_ci q s
  | _ => false
  end.

(** A record matches the text [q] when [q] occurs, letter case ignored,
    in its phone, in its note or in its country. *)
Definition text_match (q : string) (d : doc) : bool :=
  field_contains q d "phone" || field_contains q d "note" ||
  field_contains q d "country".

(** ** A fragment of the store's regular expressions

    Patterns made of ordinary characters and of the wildcard [.], which
    stands for any character but a line feed; the option [i] ignores letter
    case.  A pattern with another metacharacter is outside the fragment
    and is not compiled. *)

Module Fragment.
Inductive atom :=
| Lit (c : ascii)
| Any.

Record t := mk { atoms : list atom; caseless : bool }.

Definition metachar (c : ascii) : bool :=
  match c with
  | "\" | "^" | "$" | "." | "|" | "?" | "*" | "+"
  | "(" | ")" | "[" | "]" | "{" | "}" => true
  | _ => false
  end%char.

Fixpoint parse (p : string) : option (list atom) :=
  match p with
  | EmptyString => Some []
  | String c p' =>
      if Ascii.eqb c "."%char then cons Any <$> parse p'
      else if metachar c then None
      else cons (Lit c) <$> parse p'
  end.

Definition compile (p o : string) : option t :=
  match o with
  | EmptyString => (λ a, mk a false) <$> parse p
  | String "i" EmptyString => (λ a, mk a true) <$> parse p
  | _ => None
  end.

Definition atom_ok (ci : bool) (a : atom) (c : ascii) : bool :=
  match a with
  | Any => negb (Ascii.eqb c LF)
  | Lit x => if ci then eqb_ci x c else Ascii.eqb x c
  end.

Fixpoint at_start (ci : bool) (l : list atom) (s : string) : bool :=
  match l, s with
  | [], _ => true
  | a :: l', String c s' => atom_ok ci a c && at_start ci l' s'
  | _ :: _, EmptyString => false
  end.

Fixpoint search_atoms (ci : bool) (l : list atom) (s : string) : bool :=
  at_start ci l s ||
  match s with
  | EmptyString => false
  | String _ s' => search_atoms ci l s'
  end.

Definition search (r : t) (s : string) : bool :=
  search_atoms (caseless r) (atoms r) s.

(** The pattern that stands for the string [q] itself. *)
Fixpoint literal (q : string) : list atom :=
  match q with
  | EmptyString => []
  | String c q' => Lit c :: literal q'
  end.
End Fragment.

(** ** A sample environment

    A schema that wants a non-empty phone, identifiers of 24 hexadecimal
    digits, the fragment above as the regular expressions of the store,
    and a store with a unique index on [phone]. *)

(** A query without any metacharacter of the regular expressions. *)
Fixpoint plain (q : string) : bool :=
  match q with
  | EmptyString => true
  | String c q' => negb (Fragment.metachar c) && plain q'
  end.

Module Sample.
Definition hex_value (c : ascii) : option N :=
  let n := nat_of_ascii c in
  if (48 <=? n)%nat && (n <=? 57)%nat then Some (N.of_nat (n - 48))
  else if (97 <=? n)%nat && (n <=? 102)%nat then Some (N.of_nat (n - 87))
  else if (65 <=? n)%nat && (n <=? 70)%nat then Some (N.of_nat (n - 55))
  else None.

Fixpoint of_hex (acc : N) (s : string) : option N :=
  match s with
  | EmptyString => Some acc
  | String c s' =>
      match hex_value c with
      | Some v => of_hex (16 * acc + v)%N s'
      | None => None
      end
  end.

Definition object_id (s : string) : option oid :=
  if (String.length s =? 24)%nat then of_hex 0%N s else None.

Definition hex_digit (n : N) : ascii :=
  if (n <? 10)%N then ascii_of_N (48 + n) else ascii_of_N (87 + n).

Fixpoint to_hex (digits : nat) (n : N) (acc : string) : string :=
  match digits with
  | O => acc
  | S d => to_hex d (n / 16)%N (String (hex_digit (n mod 16)%N) acc)
  end.

Definition schema (d : doc) : bool :=
  match d !! "phone" with
  | Some (VStr (String _ _)) => true
  | _ => false
  end.

Definition same_phone (d d' : doc) : bool :=
  bool_decide (d !! "phone" = d' !! "phone").

#[global] Instance env : Env := {|
  PhoneNumberSchema := schema;
  ObjectId := Some object_id;
  oid_str := λ o, to_hex 24 o EmptyString;
  isoformat := λ t, pretty t;
  datetime_str := λ t, pretty t;
  regex := Fragment.t;
  re_compile := Fragment.compile;
  re_search := Fragment.search;
  gen_oid := λ docs _, N.of_nat (S (length docs));
  insert_fault := λ docs d, existsb (same_phone d) docs
|}.

Definition item (phone : string) (note : option string) : PhoneIn.t :=
  PhoneIn.mk phone None unknown note.

(** A connected process with an empty collection. *)
Definition empty : state := mkState true [] 1700000000 [].

(** The state a handler leaves behind. *)
Definition after (m : M response) (s : state) : state := snd (m s).

(** A process whose store handle was never established. *)
Definition down : state := mkState false [] 1700000000 [].

(** A batch of four candidates: the second has no phone and the fourth
    has the phone of the third. *)
Definition batch : BulkPhones.t :=
  BulkPhones.mk [item "555-1234" None; item EmptyString None;
                 item "777" (Some "call 555, now"); item "777" None].

Definition stocked : state := after (add_phones_bulk batch) empty.

(** A stored record of the sample. *)
Definition record (n : N) (phone : string) (note : option string) : doc :=
  <["_id" := VOid n]>
  (<["created_at" := VTime 1700000000]> (model_dump (item phone note))).

(** A connected process with these records in the collection. *)
Definition holding (docs : list doc) : state := mkState true docs 1700000000 [].

Definition first_id : string := "000000000000000000000001".
End Sample.

(** * Properties of the handlers *)

(** Unfolds the monad and the primitives of the state. *)
Ltac run :=
  cbv beta iota zeta delta
    [require_db get_db bind ret raise try now record_call get_collection
     put_collection].

(** The names of the fields an update carries a value for. *)
Definition fields_set (data : PhoneUpdate.t) : list string :=
  let name {A} (k : string) (o : option A) : list string :=
    match o with
    | Some _ => [k]
    | None => []
    end in
  name "phone" (PhoneUpdate.phone data) ++
  name "country" (PhoneUpdate.country data) ++
  name "status" (PhoneUpdate.status data) ++
  name "note" (PhoneUpdate.note data).

(** The names of the members of a PATCH body that carry a value. *)
Definition given (b : PatchBody.t) : list string :=
  fields_set (parse_PhoneUpdate b).

(** A PATCH body with every [null] member left out instead. *)
Definition without_nulls (b : PatchBody.t) : PatchBody.t :=
  let drop {A} (m : member A) : member A :=
    match m with
    | Null => Absent
    | _ => m
    end in
  PatchBody.mk (drop (PatchBody.phone b)) (drop (PatchBody.country b))
               (drop (PatchBody.status b)) (drop (PatchBody.note b)).

(** The identifier, as a string, of a stored document. *)
Definition doc_id `{Env} (d : doc) : string :=
  match d !! "_id" with
  | Some (VOid o) => oid_str o
  | _ => EmptyString
  end.

(** What becomes of one candidate in a collection [docs] at time [t]: the
    document stored for it, or [None] for a candidate that fails
    validation or insertion. *)
Definition stored_as `{Env} (docs : list doc) (t : Z) (item : PhoneIn.t)
  : option doc :=
  let d := <["created_at" := VTime t]> (model_dump item) in
  if PhoneNumberSchema (model_dump item) && negb (insert_fault docs d)
  then Some (<["_id" := VOid (gen_oid docs d)]> d)
  else None.

(** The candidates of a batch taken one after the other, each on its own. *)
Fixpoint outcomes `{Env} (docs : list doc) (t : Z) (items : list PhoneIn.t)
  : list (option doc) :=
  match items with
  | [] => []
  | item :: rest =>
      let r := stored_as docs t item in
      r :: outcomes (docs ++ option_list r) t rest
  end.

(** The number of candidates that failed. *)
Definition failures (out : list (option doc)) : nat :=
  length (filter (λ r : option doc, r = None) out).

(** The documents stored for the candidates that did not fail. *)
Definition stored (out : list (option doc)) : list doc := omap id out.

Definition unavailable : exn := HTTPException 500 "Database not available".
Definition invalid_id : exn := HTTPException 400 "Invalid id".

(** ** The diagnostics endpoints *)

(** [read_root] *)
Definition read_root : M string := ret "Phone status tracker backend running".

(** What [db.list_collection_names()] does: it returns the names, or it
    raises an exception [e] whose text is [str(e)]. *)
Inductive listing :=
| Listed (names : list string)
| Failing (text : string).

(** The dict [test_database] returns. *)
Record report := mkReport {
  backend : string;
  database : string;
  database_url : string;
  database_name : string;
  connection_status : string;
  collections : list string
}.

(** The report of an environment variable: set when [os.getenv] gives a
    string that is not empty. *)
Definition set_or_not (v : option string) : string :=
  match truthy v with
  | Some _ => "✅ Set"
  | None => "❌ Not Set"
  end.

(** A byte that continues a character in the UTF-8 form of a text. *)
Definition continuation (c : ascii) : bool :=
  let n := nat_of_ascii c in
  (128 <=? n)%nat && (n <? 192)%nat.

(** [len(s)]: the number of characters of a text, a string here being the
    bytes of its UTF-8 form. *)
Fixpoint points (s : string) : nat :=
  match s with
  | EmptyString => O
  | String c r => if continuation c then points r else S (points r)
  end.

(** [s[:n]]: the first [n] characters of a text, with all their bytes. *)
Fixpoint take_points (n : nat) (s : string) : string :=
  match s with
  | EmptyString => EmptyString
  | String c r =>
      if continuation c then String c (take_points n r)
      else
        match n with
        | O => EmptyString
        | S m => String c (take_points m r)
        end
  end.

(** [s * n] *)
Fixpoint times (n : nat) (s : string) : string :=
  match n with
  | O => EmptyString
  | S m => s +:+ times m s
  end.

(** [test_database], given [os.getenv] and what listing the collections
    does.  The text of an exception is cut to its first 80 characters. *)
Definition test_database (getenv : string → option string)
    (list_collection_names : listing) : M report :=
  d ← get_db;
  let url := set_or_not (getenv "DATABASE_URL") in
  let name := set_or_not (getenv "DATABASE_NAME") in
  if d then
    match list_collection_names with
    | Listed names =>
        ret (mkReport "✅ Running" "✅ Connected & Working" url name
                      "Connected" names)
    | Failing text =>
        ret (mkReport "✅ Running"
                      ("⚠️ Connected but Error: " +:+ take_points 80 text)
                      url name "Not Connected" [])
    end
  else
    ret (mkReport "✅ Running" "❌ Not initialized (check env)" url name
                  "Not Connected" []).

(** The sample environment when the import of [bson] failed. *)
Definition no_bson : Env := {|
  PhoneNumberSchema := Sample.schema;
  ObjectId := None;
  oid_str := λ o, Sample.to_hex 24 o EmptyString;
  isoformat := λ t, pretty t;
  datetime_str := λ t, pretty t;
  regex := Fragment.t;
  re_compile := Fragment.compile;
  re_search := Fragment.search;
  gen_oid := λ docs _, N.of_nat (S (length docs));
  insert_fault := λ docs d, existsb (Sample.same_phone d) docs
|}.

(** The filter by identifier of [update_phone] and [delete_phone]. *)
Definition by_id (o : oid) : query := [Field "_id" (Eq (VOid o))].

(** A record has the identifier [o]. *)
Definition has_id (o : oid) (d : doc) : Prop := d !! "_id" = Some (VOid o).

(** At most one record of the collection has the identifier [o]. *)
Definition at_most_one (o : oid) (docs : list doc) : Prop :=
  ∀ i j d d', docs !! i = Some d → docs !! j = Some d' →
              has_id o d → has_id o d' → i = j.

(** The [$set] document of [update_phone] at time [t]. *)
Definition set_doc (t : Z) (data : PhoneUpdate.t) : doc :=
  <["updated_at" := VTime t]> (model_dump_exclude_none data).

(** A connected process with two records in the collection. *)
Definition two_records : state :=
  Sample.holding [Sample.record 1%N "555-1234" None;
                  Sample.record 2%N "777" (Some "call 555, now")].

Definition second_id : string := "000000000000000000000002".
Definition unknown_id : string := "000000000000000000000009".

(** The document [create_document] hands to the store for a candidate at
    time [t], and the cells of the CSV row of a candidate. *)
Definition new_doc (t : Z) (item : PhoneIn.t) : doc :=
  <["created_at" := VTime t]> (model_dump item).

Definition item_cells (item : PhoneIn.t) : list string :=
  [PhoneIn.phone item; default EmptyString (PhoneIn.country item);
   status_str (PhoneIn.status item); default EmptyString (PhoneIn.note item)].

(** The text a request asks for with an optional parameter: none when
    the parameter is absent or empty. *)
Definition asked (o : option string) : option string :=
  match o with
  | Some (String c s) => Some (String c s)
  | _ => None
  end.

(** The store finds the pattern [p], letter case ignored, in the field
    [k] of a record, the field being a string. *)
Definition pattern_found `{Env} (p : string) (d : doc) (k : string) : bool :=
  match re_compile p "i", d !! k with
  | Some r, Some (VStr x) => re_search r x
  | _, _ => false
  end.

(** The records an export is about: those whose status is the status
    asked for, when one is, and in whose phone, note or country the store
    finds the text asked for as a pattern, when one is. *)
Definition selected `{Env} (status q : option string) (d : doc) : bool :=
  match asked status with
  | Some st => bool_decide (d !! "status" = Some (VStr st))
  | None => true
  end &&
  match asked q with
  | Some p =>
      pattern_found p d "phone" || pattern_found p d "note" ||
      pattern_found p d "country"
  | None => true
  end.

(** The store takes the text asked for as a pattern. *)
Definition pattern_accepted `{Env} (q : option string) : bool :=
  match asked q with
  | Some p =>
      match re_compile p "i" with
      | Some _ => true
      | None => false
      end
  | None => true
  end.

(** The cell of a CSV row for the field [k] of a record: empty for a field
    that is missing or null, the string itself for a string. *)
Definition cell `{Env} (d : doc) (k : string) : string :=
  match d !! k with
  | None => EmptyString
  | Some VNull => EmptyString
  | Some (VStr x) => x
  | Some (VTime t) => datetime_str t
  | Some (VOid o) => oid_str o
  end.

Definition cells `{Env} (d : doc) : list string :=
  [cell d "phone"; cell d "country"; cell d "status"; cell d "note"].

Definition bson_missing : exn := HTTPException 500 "ObjectId not available".

(** The names under which [list_phones] rewrites a record. *)
Definition rendered : list string := ["_id"; "id"; "created_at"; "updated_at"].

(** ** The reader reads back what the writer wrote *)

Section CSV.
Lemma append_cons (c : ascii) (s t : string) :
  String c s +:+ t = String c (s +:+ t).
Proof. reflexivity. Qed.

Lemma append_empty_l (t : string) : EmptyString +:+ t = t.
Proof. reflexivity. Qed.

Lemma append_empty_r (s : string) : s +:+ EmptyString = s.
Proof. induction s as [|c s IH]; [done|]. by rewrite append_cons, IH. Qed.

Lemma append_assoc (s t u : string) : (s +:+ t) +:+ u = s +:+ (t +:+ u).
Proof. induction s as [|c s IH]; [done|]. by rewrite !append_cons, IH. Qed.

Lemma snoc_append (s t : string) (c : ascii) : snoc s c +:+ t = s +:+ String c t.
Proof. unfold snoc. by rewrite append_assoc. Qed.

Lemma special_false (c : ascii) :
  special c = false →
  Ascii.eqb c comma = false ∧ Ascii.eqb c dquote = false ∧
  Ascii.eqb c CR = false ∧ Ascii.eqb c LF = false.
Proof.
  unfold special. intros Hc.
  repeat (apply orb_false_elim in Hc as [Hc ?]). done.
Qed.

Lemma read_plain (f acc : string) (fields : list string) (inp : string) :
  has_special f = false → at_delimiter inp →
  read Plain acc fields (f +:+ inp) = close (acc +:+ f) fields inp.
Proof.
  revert acc. induction f as [|c f IH]; intros acc Hf Hinp.
  - rewrite append_empty_l, append_empty_r.
    by destruct Hinp as [rest [-> | ->]].
  - simpl in Hf. apply orb_false_elim in Hf as [Hc Hf].
    apply special_false in Hc as (Hcomma & Hquote & Hcr & Hlf).
    rewrite append_cons. simpl. rewrite Hcomma, Hquote, Hcr, Hlf.
    rewrite IH by done. by rewrite snoc_append.
Qed.

Lemma read_quoted (f acc : string) (fields : list string) (inp : string) :
  at_delimiter inp →
  read Quoted acc fields (double_quotes f +:+ String dquote inp) =
    close (acc +:+ f) fields inp.
Proof.
  intros Hinp. revert acc. induction f as [|c f IH]; intros acc.
  - rewrite append_empty_r. simpl.
    by destruct Hinp as [rest [-> | ->]].
  - simpl. destruct (Ascii.eqb c dquote) eqn:Hc.
    + apply Ascii.eqb_eq in Hc as ->. rewrite !append_cons. simpl.
      rewrite IH. by rewrite snoc_append.
    + rewrite append_cons. simpl. rewrite Hc, IH. by rewrite snoc_append.
Qed.

(** One field as the writer renders it, followed by a delimiter.  An
    empty field that is alone in its record is the one case the reader
    would take for an empty line. *)
Lemma read_field (f : string) (fields : list string) (inp : string) :
  at_delimiter inp →
  (f = EmptyString → fields = [] → ∃ rest, inp = String comma rest) →
  read Start EmptyString fields (csv_field f +:+ inp) = close f fields inp.
Proof.
  intros Hinp Hempty. unfold csv_field.
  destruct (has_special f) eqn:Hf.
  - rewrite append_cons, append_assoc, append_cons, append_empty_l. simpl.
    by rewrite read_quoted.
  - destruct f as [|c f].
    + rewrite append_empty_l. destruct Hinp as [rest [-> | ->]]; [done|].
      destruct fields as [|g fields]; [|done].
      by destruct Hempty as [rest' ?].
    + simpl in Hf. apply orb_false_elim in Hf as [Hc Hf].
      apply special_false in Hc as (Hcomma & Hquote & Hcr & Hlf).
      rewrite append_cons. simpl. rewrite Hcomma, Hquote, Hcr, Hlf.
      by rewrite read_plain.
Qed.

Lemma read_row (fs fields : list string) (rest : string) :
  fs ≠ [] → (fields = [] → fs ≠ [EmptyString]) →
  read Start EmptyString fields
       (join_fields (map csv_field fs) +:+ lineterminator +:+ rest) =
    cons (fields ++ fs) <$> read Start EmptyString [] rest.
Proof.
  revert fields. induction fs as [|f fs IH]; intros fields Hne Hlone; [done|].
  destruct fs as [|g fs].
  - simpl. rewrite read_field.
    + done.
    + eexists. by right.
    + intros -> ->. by destruct Hlone.
  - change (join_fields (map csv_field (f :: g :: fs)))
      with (csv_field f +:+ String comma (join_fields (map csv_field (g :: fs)))).
    rewrite append_assoc, append_cons, read_field.
    + simpl close. rewrite IH; [by rewrite <- app_assoc|done|].
      intros Hnil. by apply app_eq_nil in Hnil as [_ ?].
    + eexists. by left.
    + intros _ _. by eexists.
Qed.

Lemma read_writerow (fs : list string) (rest : string) :
  fs ≠ [] →
  read Start EmptyString [] (writerow fs +:+ rest) =
    cons fs <$> read Start EmptyString [] rest.
Proof.
  intros Hne. destruct (decide (fs = [EmptyString])) as [->|Hlone]; [done|].
  assert (Hrow : writerow fs = join_fields (map csv_field fs) +:+ lineterminator).
  { destruct fs as [|[|c f] [|g fs]]; done. }
  rewrite Hrow, append_assoc. by rewrite read_row.
Qed.

(** Rows of at least one field each are read back as they were written. *)
Lemma read_writerows (rows : list (list string)) :
  Forall (λ r, r ≠ []) rows → read_csv (writerows rows) = Some rows.
Proof.
  unfold read_csv. induction 1 as [|r rows Hr _ IH]; [done|].
  simpl. rewrite read_writerow by done. by rewrite IH.
Qed.
End CSV.

Section Properties.
Context `{Env}.

Lemma require_db_up (s : state) : db s = true → require_db s = (Ok tt, s).
Proof. intros Hdb. run. by rewrite Hdb. Qed.

Lemma require_db_down (s : state) :
  db s = false → require_db s = (Raise unavailable, s).
Proof. intros Hdb. run. by rewrite Hdb. Qed.

Lemma guarded {A} (m : M A) (s : state) :
  db s = false → (require_db;; m) s = (Raise unavailable, s).
Proof. intros Hdb. unfold bind at 1. by rewrite require_db_down. Qed.

Lemma entered {A} (m : M A) (s : state) :
  db s = true → (require_db;; m) s = m s.
Proof. intros Hdb. unfold bind at 1. by rewrite require_db_up. Qed.

(** C8: when the store handle was never established, each of the six
    data-touching endpoints (list, create, bulk create, update, delete,
    export) raises the 500 "Database not available" error, whatever the
    request, and leaves the state as it was: no call to the store is
    recorded and the collection and the clock are untouched. *)
Theorem store_unavailable (s : state) :
  db s = false →
  (∀ status q limit, list_phones status q limit s = (Raise unavailable, s)) ∧
  (∀ item, add_phone item s = (Raise unavailable, s)) ∧
  (∀ payload, add_phones_bulk payload s = (Raise unavailable, s)) ∧
  (∀ item_id data, update_phone item_id data s = (Raise unavailable, s)) ∧
  (∀ item_id, delete_phone item_id s = (Raise unavailable, s)) ∧
  (∀ status q, export_phones status q s = (Raise unavailable, s)) ∧
  server_error (http_status (@Raise response unavailable)) = true.
Proof.
  intros Hdb. repeat split; intros; try by apply guarded.
Qed.

Lemma truthy_empty : truthy (Some EmptyString) = truthy None.
Proof. reflexivity. Qed.

(** C9: in [list_phones] and in [export_phones], a [status] or a [q]
    given as the empty string builds the same filter as an absent one
    (no status entry, no text-match entry), so the handler computes the
    same response and leaves the same state as for the request without
    that parameter. *)
Theorem empty_parameter_is_absent :
  (∀ q, build_filter (Some EmptyString) q = build_filter None q) ∧
  (∀ status, build_filter status (Some EmptyString) = build_filter status None) ∧
  build_filter (Some EmptyString) (Some EmptyString) = [] ∧
  (∀ q limit s,
      list_phones (Some EmptyString) q limit s = list_phones None q limit s) ∧
  (∀ status limit s,
      list_phones status (Some EmptyString) limit s = list_phones status None limit s) ∧
  (∀ q s, export_phones (Some EmptyString) q s = export_phones None q s) ∧
  (∀ status s,
      export_phones status (Some EmptyString) s = export_phones status None s).
Proof. repeat split. Qed.

Lemma parse_id_malformed (mk : string → option oid) (item_id : string) (s : state) :
  ObjectId = Some mk → mk item_id = None →
  parse_id item_id s = (Raise invalid_id, s).
Proof. intros Hmk Hid. unfold parse_id. by rewrite Hmk, Hid. Qed.

Lemma parse_id_wellformed (mk : string → option oid) (item_id : string) (o : oid)
    (s : state) :
  ObjectId = Some mk → mk item_id = Some o →
  parse_id item_id s = (Ok o, s).
Proof. intros Hmk Hid. unfold parse_id. by rewrite Hmk, Hid. Qed.

(** C3: with the store handle established, an update or a delete whose
    id the identifier constructor rejects raises the 400 "Invalid id"
    error: a client error, which is neither a 404 nor the 500 error of
    an unavailable store; the state is left as it was, so no call to the
    store is recorded. *)
Theorem malformed_id_is_client_error
    (mk : string → option oid) (item_id : string) (s : state) :
  db s = true → ObjectId = Some mk → mk item_id = None →
  (∀ data, update_phone item_id data s = (Raise invalid_id, s)) ∧
  delete_phone item_id s = (Raise invalid_id, s) ∧
  client_error (http_status (@Raise response invalid_id)) = true ∧
  http_status (@Raise response invalid_id) ≠ 404%Z ∧
  invalid_id ≠ unavailable.
Proof.
  intros Hdb Hmk Hid. repeat split; try done.
  - intros data. unfold update_phone. rewrite entered by done.
    unfold bind. by rewrite (parse_id_malformed mk).
  - unfold delete_phone. rewrite entered by done.
    unfold bind. by rewrite (parse_id_malformed mk).
Qed.

Lemma set_some_empty (k : string) (o : option string) (d : doc) :
  set_some k o d = ∅ → o = None ∧ d = ∅.
Proof.
  destruct o as [v|]; simpl; [|done].
  intros Habs. by apply insert_non_empty in Habs.
Qed.

Lemma update_doc_empty (data : PhoneUpdate.t) :
  model_dump_exclude_none data = ∅ ↔ fields_set data = [].
Proof.
  destruct data as [[p|] [c|] [st|] [n|]]; unfold model_dump_exclude_none, fields_set;
    simpl; split; intros Heq; try done;
    by (repeat (apply insert_non_empty in Heq || apply set_some_empty in Heq as [? Heq])).
Qed.

Lemma update_phone_noop
    (mk : string → option oid) (item_id : string) (o : oid)
    (data : PhoneUpdate.t) (s : state) :
  db s = true → ObjectId = Some mk → mk item_id = Some o →
  fields_set data = [] →
  update_phone item_id data s = (Ok (Updated 0), s).
Proof.
  intros Hdb Hmk Hid Hnone. unfold update_phone. rewrite entered by done.
  unfold bind. rewrite (parse_id_wellformed mk _ o) by done.
  apply update_doc_empty in Hnone. by rewrite decide_True.
Qed.

(** C2: with the store handle established and a well-formed id, an
    update that carries a value for no field returns [{"updated": 0}] and
    leaves the state as it was: no call to the store is recorded, and
    every record, its [updated_at] included, is unchanged. *)
Theorem empty_update_is_noop
    (mk : string → option oid) (item_id : string) (o : oid)
    (data : PhoneUpdate.t) (s : state) :
  db s = true → ObjectId = Some mk → mk item_id = Some o →
  fields_set data = [] →
  update_phone item_id data s = (Ok (Updated 0), s) ∧
  phonenumber (update_phone item_id data s).2 = phonenumber s ∧
  calls (update_phone item_id data s).2 = calls s.
Proof.
  intros Hdb Hmk Hid Hnone.
  by rewrite (update_phone_noop mk item_id o).
Qed.

Lemma validate_pass (item : PhoneIn.t) (s : state) :
  PhoneNumberSchema (model_dump item) = true → validate item s = (Ok tt, s).
Proof. intros Hv. unfold validate. by rewrite Hv. Qed.

Lemma validate_fail (item : PhoneIn.t) (s : state) :
  PhoneNumberSchema (model_dump item) = false →
  validate item s = (Raise ValidationError, s).
Proof. intros Hv. unfold validate. by rewrite Hv. Qed.

(** C4: with the store handle established, [add_phone] checks the
    candidate against [PhoneNumberSchema] before it inserts.  When the
    schema rejects the candidate, the handler raises the validation error
    (answered with a 500), returns no id and leaves the state as it was,
    so no call to the store is recorded.  Conversely an id is returned,
    or a call to the store recorded, only for a candidate the schema
    accepts. *)
Theorem single_create_validation_surfaces (item : PhoneIn.t) (s : state) :
  db s = true →
  (PhoneNumberSchema (model_dump item) = false →
     add_phone item s = (Raise ValidationError, s) ∧
     server_error (http_status (@Raise response ValidationError)) = true) ∧
  (∀ r s', add_phone item s = (Ok r, s') →
     PhoneNumberSchema (model_dump item) = true) ∧
  (∀ r s', add_phone item s = (r, s') → calls s' ≠ calls s →
     PhoneNumberSchema (model_dump item) = true).
Proof.
  intros Hdb.
  assert (Hfail : PhoneNumberSchema (model_dump item) = false →
                  add_phone item s = (Raise ValidationError, s)).
  { intros Hv. unfold add_phone. rewrite entered by done.
    unfold bind. by rewrite validate_fail. }
  split; [|split].
  - intros Hv. by split; [apply Hfail|].
  - intros r s' Hrun. destruct (PhoneNumberSchema (model_dump item)) eqn:Hv; [done|].
    by rewrite Hfail in Hrun.
  - intros r s' Hrun Hcalls.
    destruct (PhoneNumberSchema (model_dump item)) eqn:Hv; [done|].
    rewrite Hfail in Hrun by done. by simplify_eq.
Qed.

(** What [update_first] does: either no document matches and nothing
    changes, or the first match, at index [i], is merged with [set]. *)
Lemma update_first_spec (flt : query) (set : doc) (docs : list doc) :
  (Forall (λ d, matches flt d = false) docs ∧
   update_first flt set docs =
     (docs, {| matched_count := 0; modified_count := 0 |})) ∨
  (∃ i d, docs !! i = Some d ∧ matches flt d = true ∧
     update_first flt set docs =
       (<[i := set ∪ d]> docs,
        {| matched_count := 1;
           modified_count := if decide (set ∪ d = d) then 0 else 1 |})).
Proof.
  induction docs as [|d docs IH]; simpl.
  - left. by split.
  - destruct (matches flt d) eqn:Hm.
    + right. by exists 0%nat, d.
    + destruct IH as [[Hall Heq]|(i & d' & Hi & Hm' & Heq)]; rewrite Heq.
      * left. split; [by constructor|done].
      * right. by exists (S i), d'.
Qed.

Lemma update_first_modified (flt : query) (set : doc) (docs : list doc) :
  (modified_count (update_first flt set docs).2 ≤ 1)%nat ∧
  (modified_count (update_first flt set docs).2 = 0%nat ↔
   (update_first flt set docs).1 = docs).
Proof.
  destruct (update_first_spec flt set docs) as [[_ Heq]|(i & d & Hi & _ & Heq)];
    rewrite Heq; simpl; [by split; [lia|split]|].
  case_decide as Hsame; split; try lia; split; try done.
  - intros _. rewrite Hsame. by apply list_insert_id.
  - intros Hins. exfalso. apply Hsame.
    assert (Hlook : <[i := set ∪ d]> docs !! i = Some (set ∪ d)).
    { apply list_lookup_insert_eq. by eapply lookup_lt_Some. }
    rewrite Hins, Hi in Hlook. by simplify_eq.
Qed.

Lemma update_one_run (flt : query) (set : doc) (s : state) :
  query_valid flt = true →
  update_one flt set s =
    (Ok (update_first flt set (phonenumber s)).2,
     mkState (db s) (update_first flt set (phonenumber s)).1 (clock s)
             (calls s ++ [UpdateOne flt set])).
Proof.
  intros Hv. unfold update_one. run. rewrite Hv. simpl.
  by destruct (update_first flt set (phonenumber s)).
Qed.

Lemma by_id_holds (o : oid) (d : doc) :
  matches [Field "_id" (Eq (VOid o))] d = true → d !! "_id" = Some (VOid o).
Proof.
  unfold matches. simpl. rewrite andb_true_r.
  destruct (d !! "_id") as [v|]; intros Hm.
  - apply bool_decide_eq_true in Hm. by subst.
  - done.
Qed.

(** C6: with the store handle established and a well-formed id, an
    update that carries a value for at least one field makes exactly one
    call to the store, an [update_one] on [{"_id": oid}] whose [$set]
    document is the values carried together with [updated_at] at the
    current time.  The handler returns the [modified_count] of that call
    as it is: it is at most 1, it is 0 exactly when the collection is
    left as it was (no record has that id, or nothing changed), and when
    it is 1 the record with that id has been merged with the [$set]
    document, its [updated_at] now the current time.  No error is raised
    for an id that no record has. *)
Theorem update_sets_updated_at
    (mk : string → option oid) (item_id : string) (o : oid)
    (data : PhoneUpdate.t) (s : state) :
  db s = true → ObjectId = Some mk → mk item_id = Some o →
  fields_set data ≠ [] →
  let flt := [Field "_id" (Eq (VOid o))] in
  let set := <["updated_at" := VTime (clock s)]> (model_dump_exclude_none data) in
  let res := update_first flt set (phonenumber s) in
  update_phone item_id data s =
    (Ok (Updated (modified_count res.2)),
     mkState (db s) res.1 (clock s) (calls s ++ [UpdateOne flt set])) ∧
  (∀ k v, model_dump_exclude_none data !! k = Some v → k ≠ "updated_at" →
          set !! k = Some v) ∧
  set !! "updated_at" = Some (VTime (clock s)) ∧
  (modified_count res.2 ≤ 1)%nat ∧
  (modified_count res.2 = 0%nat ↔ res.1 = phonenumber s) ∧
  (modified_count res.2 = 1%nat →
   ∃ i d, phonenumber s !! i = Some d ∧ d !! "_id" = Some (VOid o) ∧
          res.1 = <[i := set ∪ d]> (phonenumber s) ∧
          (set ∪ d) !! "updated_at" = Some (VTime (clock s))).
Proof.
  intros Hdb Hmk Hid Hsome flt set res.
  split; [|split; [|split; [|split; [|split]]]].
  - unfold update_phone. rewrite entered by done.
    unfold bind at 1. rewrite (parse_id_wellformed mk _ o) by done.
    rewrite decide_False by (by rewrite update_doc_empty).
    unfold bind at 1, now. unfold bind.
    by rewrite update_one_run.
  - intros k v Hk Hne. unfold set. by rewrite lookup_insert_ne.
  - unfold set. by rewrite lookup_insert_eq.
  - apply update_first_modified.
  - apply update_first_modified.
  - unfold res.
    destruct (update_first_spec flt set (phonenumber s))
      as [[_ Heq]|(i & d & Hi & Hm & Heq)]; rewrite Heq; simpl; [done|].
    intros _. exists i, d. split; [done|]. split; [by apply by_id_holds|].
    split; [done|]. apply lookup_union_Some_l. unfold set.
    by rewrite lookup_insert_eq.
Qed.
Lemma set_some_lookup (k k' : string) (o : option string) (d : doc) (v : value) :
  set_some k o d !! k' = Some v →
  (k' = k ∧ ∃ x, o = Some x ∧ v = VStr x) ∨ d !! k' = Some v.
Proof.
  destruct o as [x|]; simpl; [|by right].
  rewrite lookup_insert. case_decide; [|by right].
  intros [= <-]. left. eauto.
Qed.

(** The update document only holds strings, under the names of the
    fields that carry a value. *)
Lemma update_doc_lookup (data : PhoneUpdate.t) (k : string) (v : value) :
  model_dump_exclude_none data !! k = Some v →
  k ∈ fields_set data ∧ ∃ x, v = VStr x.
Proof.
  unfold model_dump_exclude_none, fields_set. intros Hk.
  repeat (apply set_some_lookup in Hk as [(-> & x & Ho & ->)|Hk];
          [split; [|by eauto]|]).
  - rewrite Ho. set_solver.
  - rewrite Ho. set_solver.
  - destruct (PhoneUpdate.status data); [|done]. set_solver.
  - rewrite Ho. set_solver.
  - by rewrite lookup_empty in Hk.
Qed.

(** [update_phone] leaves the collection as it was or applies one
    [$set] of the update document and [updated_at]. *)
Lemma update_phone_collection (item_id : string) (data : PhoneUpdate.t) (s : state) :
  phonenumber (update_phone item_id data s).2 = phonenumber s ∨
  ∃ o, phonenumber (update_phone item_id data s).2 =
         (update_first [Field "_id" (Eq (VOid o))]
            (<["updated_at" := VTime (clock s)]> (model_dump_exclude_none data))
            (phonenumber s)).1.
Proof.
  destruct (db s) eqn:Hdb; [|left; unfold update_phone; by rewrite guarded].
  destruct ObjectId as [mk|] eqn:Hmk.
  - destruct (mk item_id) as [o|] eqn:Hid.
    + destruct (decide (model_dump_exclude_none data = ∅)) as [Hemp|Hemp].
      * left. apply update_doc_empty in Hemp.
        by rewrite (update_phone_noop mk item_id o).
      * right. exists o. unfold update_phone. rewrite entered by done.
        unfold bind at 1. rewrite (parse_id_wellformed mk _ o) by done.
        rewrite decide_False by done.
        unfold bind at 1, now. unfold bind. by rewrite update_one_run.
    + left. unfold update_phone. rewrite entered by done.
      unfold bind. by rewrite (parse_id_malformed mk).
  - left. unfold update_phone. rewrite entered by done.
    unfold bind, parse_id. by rewrite Hmk.
Qed.

Lemma given_spec (body : PatchBody.t) :
  ("phone" ∈ given body ↔ ∃ v, PatchBody.phone body = Given v) ∧
  ("country" ∈ given body ↔ ∃ v, PatchBody.country body = Given v) ∧
  ("status" ∈ given body ↔ ∃ v, PatchBody.status body = Given v) ∧
  ("note" ∈ given body ↔ ∃ v, PatchBody.note body = Given v).
Proof.
  destruct body as [[| |p] [| |c] [| |st] [| |n]]; unfold given, fields_set; simpl;
    repeat split; intros Hin;
    first [ by eauto
          | compute_done
          | by (exfalso; revert Hin; compute_done)
          | by destruct Hin as [? [=]] ].
Qed.

(** C10: a PATCH body in which a member is [null] is handled as the body
    with that member left out: same response, same state.  A member of
    the body carries a value only when it is neither left out nor
    [null]; whatever the request, in every record the fields among
    phone, country, status and note for which the body carries no value
    keep their stored value, and no field of a record becomes [null]
    unless it was [null] before. *)
Theorem null_member_is_omitted (item_id : string) (body : PatchBody.t) (s : state) :
  patch_phone item_id body s = patch_phone item_id (without_nulls body) s ∧
  (("phone" ∈ given body ↔ ∃ v, PatchBody.phone body = Given v) ∧
   ("country" ∈ given body ↔ ∃ v, PatchBody.country body = Given v) ∧
   ("status" ∈ given body ↔ ∃ v, PatchBody.status body = Given v) ∧
   ("note" ∈ given body ↔ ∃ v, PatchBody.note body = Given v)) ∧
  length (phonenumber (patch_phone item_id body s).2) = length (phonenumber s) ∧
  ∀ i d d',
    phonenumber s !! i = Some d →
    phonenumber (patch_phone item_id body s).2 !! i = Some d' →
    (∀ k, k ∈ headers → k ∉ given body → d' !! k = d !! k) ∧
    (∀ k, d' !! k = Some VNull → d !! k = Some VNull).
Proof.
  split; [|split; [apply given_spec|]].
  { unfold patch_phone. f_equal.
    by destruct body as [[| |p] [| |c] [| |st] [| |n]]. }
  unfold patch_phone, given. set (data := parse_PhoneUpdate body).
  destruct (update_phone_collection item_id data s) as [->|[o ->]].
  { split; [done|]. intros i d d' Hd Hd'. rewrite Hd in Hd'. by simplify_eq. }
  set (set := <["updated_at" := VTime (clock s)]> (model_dump_exclude_none data)).
  destruct (update_first_spec [Field "_id" (Eq (VOid o))] set (phonenumber s))
    as [[_ ->]|(j & d0 & Hj & _ & ->)]; simpl.
  { split; [done|]. intros i d d' Hd Hd'. rewrite Hd in Hd'. by simplify_eq. }
  split; [by rewrite length_insert|].
  intros i d d' Hd Hd'.
  destruct (decide (i = j)) as [->|Hne];
    [|rewrite list_lookup_insert_ne in Hd' by done; rewrite Hd in Hd'; by simplify_eq].
  rewrite list_lookup_insert_eq in Hd' by (by eapply lookup_lt_Some).
  rewrite Hj in Hd. simplify_eq. split.
  - intros k Hk Hnot. apply lookup_union_r. unfold set.
    rewrite lookup_insert_ne by (intros <-; revert Hk; compute_done).
    destruct (model_dump_exclude_none data !! k) as [v|] eqn:Hv; [|done].
    by apply update_doc_lookup in Hv as [? _].
  - intros k Hnull. apply lookup_union_Some_raw in Hnull as [Hset|[_ Hold]]; [|done].
    unfold set in Hset. rewrite lookup_insert in Hset.
    case_decide; [done|]. by apply update_doc_lookup in Hset as [_ [x ?]].
Qed.
Lemma insert_one_run (d : doc) (s : state) :
  insert_one d s =
    if insert_fault (phonenumber s) d
    then (Raise OperationFailure,
          mkState (db s) (phonenumber s) (clock s) (calls s ++ [InsertOne d]))
    else (Ok (gen_oid (phonenumber s) d),
          mkState (db s)
            (phonenumber s ++ [<["_id" := VOid (gen_oid (phonenumber s) d)]> d])
            (clock s) (calls s ++ [InsertOne d])).
Proof.
  unfold insert_one. run. simpl.
  by destruct (insert_fault (phonenumber s) d).
Qed.

(** The body of the loop of [add_phones_bulk], on one candidate: it never
    raises, it returns the id of the document stored for the candidate
    when there is one, and it adds that document, and nothing else, at
    the end of the collection. *)
Lemma bulk_step (item : PhoneIn.t) (s : state) :
  ∃ r cs,
    try (validate item;; create_document item) s =
      (Ok r,
       mkState (db s)
         (phonenumber s ++ option_list (stored_as (phonenumber s) (clock s) item))
         (clock s) cs) ∧
    match stored_as (phonenumber s) (clock s) item with
    | Some d => r = Ok (doc_id d)
    | None => ∃ e, r = Raise e
    end.
Proof.
  unfold try, stored_as. unfold bind at 1.
  destruct (PhoneNumberSchema (model_dump item)) eqn:Hv.
  - rewrite validate_pass by done. unfold create_document.
    unfold bind at 1, now. unfold bind, ret. rewrite insert_one_run. simpl.
    destruct (insert_fault _ _); simpl.
    + eexists _, _. split; [by rewrite app_nil_r|]. eexists. reflexivity.
    + eexists _, _. split; [done|]. unfold doc_id.
      by rewrite lookup_insert_eq.
  - rewrite validate_fail by done. simpl.
    exists (Raise ValidationError), (calls s).
    split; [|by exists ValidationError]. rewrite app_nil_r. by destruct s.
Qed.

Lemma bulk_loop_run (items : list PhoneIn.t) (inserted : list string) (s : state) :
  ∃ cs,
    bulk_loop items inserted s =
      (Ok (inserted ++ map doc_id (stored (outcomes (phonenumber s) (clock s) items))),
       mkState (db s)
         (phonenumber s ++ stored (outcomes (phonenumber s) (clock s) items))
         (clock s) cs).
Proof.
  revert inserted s. induction items as [|item rest IH]; intros inserted s.
  - exists (calls s). simpl. unfold ret, stored. simpl.
    rewrite !app_nil_r. by destruct s.
  - simpl. unfold bind at 1.
    destruct (bulk_step item s) as (r & cs & -> & Hr).
    destruct (stored_as (phonenumber s) (clock s) item) as [d|] eqn:Hout.
    + subst r. edestruct IH as [cs' ->]. exists cs'. simpl.
      unfold stored. simpl. by rewrite <- !app_assoc.
    + destruct Hr as [e ->]. edestruct IH as [cs' ->]. exists cs'. simpl.
      unfold stored. simpl. by rewrite !app_nil_r.
Qed.

Lemma outcomes_length (docs : list doc) (t : Z) (items : list PhoneIn.t) :
  length (outcomes docs t items) = length items.
Proof.
  revert docs. induction items as [|item rest IH]; intros docs; simpl; [done|].
  by rewrite IH.
Qed.

Lemma outcomes_app (docs : list doc) (t : Z) (pre post : list PhoneIn.t) :
  outcomes docs t (pre ++ post) =
    outcomes docs t pre ++ outcomes (docs ++ stored (outcomes docs t pre)) t post.
Proof.
  revert docs. induction pre as [|item rest IH]; intros docs; simpl.
  - unfold stored. simpl. by rewrite app_nil_r.
  - rewrite IH. unfold stored. simpl.
    destruct (stored_as docs t item); simpl; [|by rewrite app_nil_r].
    by rewrite <- app_assoc.
Qed.

Lemma stored_failures (out : list (option doc)) :
  (length (stored out) + failures out = length out)%nat.
Proof.
  unfold stored, failures. induction out as [|[d|] out IH]; [done| |].
  - rewrite filter_cons_False by done. simpl. f_equal. exact IH.
  - rewrite filter_cons_True by done. simpl. rewrite Nat.add_succ_r.
    f_equal. exact IH.
Qed.

(** C1: with the store handle established, a bulk create of [N]
    candidates of which [K] fail validation or insertion raises no error
    and returns [N - K] ids with [count = N - K]: the ids, in order, of
    the documents stored for the candidates that did not fail.  The
    collection afterwards is the collection before followed by those
    documents, and it extends the collection that the candidates of any
    initial part of the batch leave on their own: what was inserted
    before a failing candidate stays inserted. *)
Theorem bulk_create_is_best_effort (payload : BulkPhones.t) (s : state) :
  db s = true →
  let items := BulkPhones.items payload in
  let out := outcomes (phonenumber s) (clock s) items in
  let N := length items in
  let K := failures out in
  ∃ ids s',
    add_phones_bulk payload s = (Ok (Inserted ids (N - K)), s') ∧
    length ids = (N - K)%nat ∧
    ids = map doc_id (stored out) ∧
    phonenumber s' = phonenumber s ++ stored out ∧
    ∀ pre post, items = pre ++ post →
      phonenumber (add_phones_bulk (BulkPhones.mk pre) s).2 `prefix_of` phonenumber s'.
Proof.
  intros Hdb items out N K.
  assert (Hcount : (length (stored out) = N - K)%nat).
  { pose proof (stored_failures out) as Hsum. unfold N, K.
    rewrite <- (outcomes_length (phonenumber s) (clock s) items). fold out. lia. }
  destruct (bulk_loop_run items [] s) as [cs Hloop].
  eexists _, _. split; [|split; [|split; [|split]]].
  - unfold add_phones_bulk. rewrite entered by done.
    unfold bind. fold items. rewrite Hloop. unfold ret. simpl.
    fold out. by rewrite length_map, Hcount.
  - fold out. by rewrite length_map.
  - done.
  - done.
  - intros pre post Hsplit. simpl.
    unfold add_phones_bulk. rewrite entered by done. unfold bind. simpl.
    destruct (bulk_loop_run pre [] s) as [cs' ->]. simpl.
    unfold out. rewrite Hsplit, outcomes_app. unfold stored at 2.
    rewrite omap_app, app_assoc. by apply prefix_app_r.
Qed.
Lemma find_run (flt : query) (limit : option Z) (s : state) :
  query_valid flt = true →
  find flt limit s =
    (Ok (match limit with
         | Some n => take (Z.to_nat n) (List.filter (matches flt) (phonenumber s))
         | None => List.filter (matches flt) (phonenumber s)
         end),
     mkState (db s) (phonenumber s) (clock s) (calls s ++ [Find flt limit])).
Proof. intros Hv. unfold find. run. by rewrite Hv. Qed.

(** On a query without metacharacters, and with an engine for which
    such a pattern is a case-insensitive substring search, the filter
    the handlers build is the text match on phone, note and country. *)
Lemma plain_query_is_substring (q : string) (d : doc) :
  (∀ p, plain p = true →
        ∃ r, re_compile p "i" = Some r ∧ ∀ x, re_search r x = contains_ci p x) →
  q ≠ EmptyString → plain q = true →
  query_valid (build_filter None (Some q)) = true ∧
  matches (build_filter None (Some q)) d = text_match q d.
Proof.
  intros Hengine Hq Hplain. destruct (Hengine q Hplain) as (r & Hr & Hsearch).
  assert (Hk : ∀ k, cond_holds (Regex q "i") (d !! k) = field_contains q d k).
  { intros k. unfold field_contains. simpl. rewrite Hr.
    by destruct (d !! k) as [[]|]. }
  assert (Hflt : build_filter None (Some q) =
                   [Or [("phone", Regex q "i"); ("note", Regex q "i");
                        ("country", Regex q "i")]])
    by (by destruct q).
  rewrite Hflt. unfold query_valid, matches, text_match.
  cbn [forallb existsb clause_valid clause_holds cond_valid fst snd].
  rewrite Hr, !Hk. split; [done|].
  by rewrite !orb_false_r, andb_true_r, orb_assoc.
Qed.
End Properties.

(** * Further properties of the handlers *)

Section Further.
Context `{Env}.

Lemma by_id_iff (o : oid) (d : doc) :
  matches (by_id o) d = true ↔ has_id o d.
Proof.
  unfold by_id, has_id, matches. simpl. rewrite andb_true_r.
  destruct (d !! "_id") as [v|]; simpl.
  - rewrite bool_decide_eq_true. split; [by intros ->|by intros [= ->]].
  - by split.
Qed.

Lemma by_id_false (o : oid) (d : doc) :
  matches (by_id o) d = false ↔ ¬ has_id o d.
Proof. rewrite <- by_id_iff. by destruct (matches (by_id o) d). Qed.

(** What [delete_first] does: either no document matches and nothing
    changes, or the first match, at index [i], is taken out. *)
Lemma delete_first_spec (flt : query) (docs : list doc) :
  (Forall (λ d, matches flt d = false) docs ∧
   delete_first flt docs = (docs, {| deleted_count := 0 |})) ∨
  (∃ i d, docs !! i = Some d ∧ matches flt d = true ∧
     Forall (λ d', matches flt d' = false) (take i docs) ∧
     delete_first flt docs = (delete i docs, {| deleted_count := 1 |})).
Proof.
  induction docs as [|d docs IH]; simpl.
  - left. by split.
  - destruct (matches flt d) eqn:Hm.
    + right. exists 0%nat, d. by repeat split.
    + destruct IH as [[Hall Heq]|(i & d' & Hi & Hm' & Hbefore & Heq)]; rewrite Heq.
      * left. split; [by constructor|done].
      * right. exists (S i), d'. repeat split; try done. simpl. by constructor.
Qed.

Lemma delete_one_run (flt : query) (s : state) :
  query_valid flt = true →
  delete_one flt s =
    (Ok (delete_first flt (phonenumber s)).2,
     mkState (db s) (delete_first flt (phonenumber s)).1 (clock s)
             (calls s ++ [DeleteOne flt])).
Proof.
  intros Hv. unfold delete_one. run. rewrite Hv. simpl.
  by destruct (delete_first flt (phonenumber s)).
Qed.

Lemma delete_phone_run
    (mk : string → option oid) (item_id : string) (o : oid) (s : state) :
  db s = true → ObjectId = Some mk → mk item_id = Some o →
  delete_phone item_id s =
    (Ok (Deleted (deleted_count (delete_first (by_id o) (phonenumber s)).2)),
     mkState (db s) (delete_first (by_id o) (phonenumber s)).1 (clock s)
             (calls s ++ [DeleteOne (by_id o)])).
Proof.
  intros Hdb Hmk Hid. unfold delete_phone. rewrite entered by done.
  unfold bind at 1. rewrite (parse_id_wellformed mk _ o) by done.
  unfold bind. fold (by_id o). by rewrite delete_one_run.
Qed.

(** X1: with the store handle established and a well-formed id,
    [delete_phone] makes one [delete_one] call and returns its count.
    Either no record has the id, the count is 0 and the collection is as
    it was; or the count is 1 and the collection is the one before without
    the first record that has the id, the others kept in their order. *)
Theorem delete_removes_first_match
    (mk : string → option oid) (item_id : string) (o : oid) (s : state) :
  db s = true → ObjectId = Some mk → mk item_id = Some o →
  (Forall (λ d, ¬ has_id o d) (phonenumber s) ∧
   delete_phone item_id s =
     (Ok (Deleted 0),
      mkState (db s) (phonenumber s) (clock s) (calls s ++ [DeleteOne (by_id o)]))) ∨
  (∃ i d, phonenumber s !! i = Some d ∧ has_id o d ∧
     Forall (λ d', ¬ has_id o d') (take i (phonenumber s)) ∧
     delete_phone item_id s =
       (Ok (Deleted 1),
        mkState (db s) (delete i (phonenumber s)) (clock s)
                (calls s ++ [DeleteOne (by_id o)]))).
Proof.
  intros Hdb Hmk Hid. rewrite (delete_phone_run mk item_id o) by done.
  destruct (delete_first_spec (by_id o) (phonenumber s))
    as [[Hall ->]|(i & d & Hi & Hm & Hbefore & ->)]; simpl.
  - left. split; [|done].
    eapply Forall_impl; [exact Hall|]. intros d. by rewrite by_id_false.
  - right. exists i, d. repeat split; try done.
    + by apply by_id_iff.
    + eapply Forall_impl; [exact Hbefore|]. intros d'. by rewrite by_id_false.
Qed.
Lemma delete_first_none (o : oid) (docs : list doc) :
  Forall (λ d, ¬ has_id o d) docs →
  delete_first (by_id o) docs = (docs, {| deleted_count := 0 |}).
Proof.
  intros Hnone.
  destruct (delete_first_spec (by_id o) docs) as [[_ ->]|(i & d & Hi & Hm & _)]; [done|].
  apply by_id_iff in Hm. rewrite Forall_forall in Hnone.
  destruct (Hnone d); [|done]. by eapply list_elem_of_lookup_2.
Qed.

Lemma update_first_none (o : oid) (set : doc) (docs : list doc) :
  Forall (λ d, ¬ has_id o d) docs →
  update_first (by_id o) set docs =
    (docs, {| matched_count := 0; modified_count := 0 |}).
Proof.
  intros Hnone.
  destruct (update_first_spec (by_id o) set docs) as [[_ ->]|(i & d & Hi & Hm & _)]; [done|].
  apply by_id_iff in Hm. rewrite Forall_forall in Hnone.
  destruct (Hnone d); [|done]. by eapply list_elem_of_lookup_2.
Qed.

Lemma update_phone_run
    (mk : string → option oid) (item_id : string) (o : oid)
    (data : PhoneUpdate.t) (s : state) :
  db s = true → ObjectId = Some mk → mk item_id = Some o →
  fields_set data ≠ [] →
  update_phone item_id data s =
    (Ok (Updated (modified_count
           (update_first (by_id o) (set_doc (clock s) data) (phonenumber s)).2)),
     mkState (db s)
       (update_first (by_id o) (set_doc (clock s) data) (phonenumber s)).1
       (clock s) (calls s ++ [UpdateOne (by_id o) (set_doc (clock s) data)])).
Proof.
  intros Hdb Hmk Hid Hsome. unfold update_phone. rewrite entered by done.
  unfold bind at 1. rewrite (parse_id_wellformed mk _ o) by done.
  rewrite decide_False by (by rewrite update_doc_empty).
  unfold bind at 1, now. unfold bind. fold (by_id o).
  by rewrite update_one_run.
Qed.

(** After the first record with an identifier is taken out of a
    collection that holds at most one, none is left. *)
Lemma delete_leaves_none (o : oid) (docs : list doc) (i : nat) (d : doc) :
  at_most_one o docs → docs !! i = Some d → has_id o d →
  Forall (λ d', ¬ has_id o d') (delete i docs).
Proof.
  intros Huniq Hi Hd. apply Forall_lookup. intros j d' Hj Hd'.
  destruct (decide (j < i)%nat) as [Hlt|Hge].
  - rewrite list_lookup_delete_lt in Hj by done.
    pose proof (Huniq _ _ _ _ Hi Hj Hd Hd'). lia.
  - rewrite list_lookup_delete_ge in Hj by lia.
    pose proof (Huniq _ _ _ _ Hi Hj Hd Hd'). lia.
Qed.

(** X2: with the store handle established, a well-formed id and a
    collection in which at most one record has that id, after
    [delete_phone] no record has the id: a second [delete_phone] returns
    [{"deleted": 0}] and an [update_phone] that carries a value returns
    [{"updated": 0}], both leaving the collection as the first delete
    left it. *)
Theorem delete_then_gone
    (mk : string → option oid) (item_id : string) (o : oid) (s : state) :
  db s = true → ObjectId = Some mk → mk item_id = Some o →
  at_most_one o (phonenumber s) →
  let s1 := (delete_phone item_id s).2 in
  Forall (λ d, ¬ has_id o d) (phonenumber s1) ∧
  (delete_phone item_id s1).1 = Ok (Deleted 0) ∧
  phonenumber (delete_phone item_id s1).2 = phonenumber s1 ∧
  ∀ data, fields_set data ≠ [] →
    (update_phone item_id data s1).1 = Ok (Updated 0) ∧
    phonenumber (update_phone item_id data s1).2 = phonenumber s1.
Proof.
  intros Hdb Hmk Hid Huniq s1.
  assert (Hdb1 : db s1 = true).
  { unfold s1. by rewrite (delete_phone_run mk item_id o). }
  assert (Hnone : Forall (λ d, ¬ has_id o d) (phonenumber s1)).
  { unfold s1. rewrite (delete_phone_run mk item_id o) by done. simpl.
    destruct (delete_first_spec (by_id o) (phonenumber s))
      as [[Hall ->]|(i & d & Hi & Hm & _ & ->)]; simpl.
    - eapply Forall_impl; [exact Hall|]. intros d. by rewrite by_id_false.
    - apply by_id_iff in Hm. by eapply delete_leaves_none. }
  split; [done|].
  rewrite (delete_phone_run mk item_id o s1) by done.
  rewrite delete_first_none by done.
  split; [done|]. split; [done|]. intros data Hsome.
  rewrite (update_phone_run mk item_id o) by done.
  by rewrite update_first_none.
Qed.

(** X3: with the store handle established and a well-formed id that no
    record has, an [update_phone] that carries a value makes its one
    [update_one] call, returns [{"updated": 0}] and raises no error; the
    collection is as it was. *)
Theorem update_unknown_id
    (mk : string → option oid) (item_id : string) (o : oid)
    (data : PhoneUpdate.t) (s : state) :
  db s = true → ObjectId = Some mk → mk item_id = Some o →
  fields_set data ≠ [] →
  Forall (λ d, ¬ has_id o d) (phonenumber s) →
  update_phone item_id data s =
    (Ok (Updated 0),
     mkState (db s) (phonenumber s) (clock s)
             (calls s ++ [UpdateOne (by_id o) (set_doc (clock s) data)])).
Proof.
  intros Hdb Hmk Hid Hsome Hnone.
  rewrite (update_phone_run mk item_id o) by done.
  by rewrite update_first_none.
Qed.

Lemma set_doc_stamp (t : Z) (data : PhoneUpdate.t) (d : doc) :
  (set_doc t data ∪ d) !! "updated_at" = Some (VTime t).
Proof.
  apply lookup_union_Some_l. unfold set_doc. by rewrite lookup_insert_eq.
Qed.

(** X4: with the store handle established, a well-formed id that some
    record has, and no record with that id already stamped with the
    current time, an [update_phone] that carries a value returns
    [{"updated": 1}], also when the values carried are the stored ones:
    [updated_at] is rewritten on every update that finds its record. *)
Theorem update_known_id_modifies
    (mk : string → option oid) (item_id : string) (o : oid)
    (data : PhoneUpdate.t) (s : state) :
  db s = true → ObjectId = Some mk → mk item_id = Some o →
  fields_set data ≠ [] →
  Exists (has_id o) (phonenumber s) →
  Forall (λ d, has_id o d → d !! "updated_at" ≠ Some (VTime (clock s)))
         (phonenumber s) →
  (update_phone item_id data s).1 = Ok (Updated 1).
Proof.
  intros Hdb Hmk Hid Hsome Hex Hstale.
  rewrite (update_phone_run mk item_id o) by done. simpl.
  destruct (update_first_spec (by_id o) (set_doc (clock s) data) (phonenumber s))
    as [[Hall _]|(i & d & Hi & Hm & ->)]; simpl.
  - apply Exists_exists in Hex as (d & Hd & Hhas).
    rewrite Forall_forall in Hall. apply Hall in Hd.
    apply by_id_false in Hd. done.
  - rewrite decide_False; [done|]. intros Hsame.
    rewrite Forall_forall in Hstale. apply by_id_iff in Hm.
    apply (Hstale d); [by eapply list_elem_of_lookup_2|done|].
    rewrite <- Hsame. apply set_doc_stamp.
Qed.
Lemma fields_set_headers (data : PhoneUpdate.t) (k : string) :
  k ∈ fields_set data → k ∈ headers.
Proof.
  unfold fields_set. rewrite !elem_of_app.
  intros [Hk|[Hk|[Hk|Hk]]];
    [destruct (PhoneUpdate.phone data) | destruct (PhoneUpdate.country data)
    |destruct (PhoneUpdate.status data) | destruct (PhoneUpdate.note data)];
    first [ by apply elem_of_nil in Hk
          | apply list_elem_of_singleton in Hk as ->; compute_done ].
Qed.

(** The [$set] document holds nothing under a name that is neither one of
    the four fields nor [updated_at]. *)
Lemma set_doc_other (t : Z) (data : PhoneUpdate.t) (k : string) :
  k ∉ headers → k ≠ "updated_at" → set_doc t data !! k = None.
Proof.
  intros Hk Hne. unfold set_doc. rewrite lookup_insert_ne by done.
  destruct (model_dump_exclude_none data !! k) as [v|] eqn:Hv; [|done].
  apply update_doc_lookup in Hv as [Hin _].
  by apply fields_set_headers in Hin.
Qed.

(** The state [update_phone] leaves: the store handle and the clock are
    as they were, and the collection is as it was or has gone through one
    [$set] on the filter by the identifier the id stands for. *)
Lemma update_phone_state (item_id : string) (data : PhoneUpdate.t) (s : state) :
  db (update_phone item_id data s).2 = db s ∧
  clock (update_phone item_id data s).2 = clock s ∧
  (phonenumber (update_phone item_id data s).2 = phonenumber s ∨
   ∃ mk o, ObjectId = Some mk ∧ mk item_id = Some o ∧
     phonenumber (update_phone item_id data s).2 =
       (update_first (by_id o) (set_doc (clock s) data) (phonenumber s)).1).
Proof.
  destruct (db s) eqn:Hdb;
    [|unfold update_phone; rewrite guarded by done; by repeat split; try left].
  destruct ObjectId as [mk|] eqn:Hmk.
  - destruct (mk item_id) as [o|] eqn:Hid.
    + destruct (decide (fields_set data = [])) as [Hemp|Hemp].
      * rewrite (update_phone_noop mk item_id o) by done.
        by repeat split; try left.
      * rewrite (update_phone_run mk item_id o) by done. simpl.
        repeat split; try done. right. by exists mk, o.
    + unfold update_phone. rewrite entered by done.
      unfold bind. rewrite (parse_id_malformed mk) by done.
      by repeat split; try left.
  - unfold update_phone. rewrite entered by done.
    unfold bind, parse_id. rewrite Hmk. by repeat split; try left.
Qed.

(** X5: whatever the request, [update_phone] keeps the number and the
    order of the records, and the [_id] and the [created_at] of each.  A
    record it changes has the identifier the id of the request stands
    for, and it changes at most one record. *)
Theorem update_keeps_identity (item_id : string) (data : PhoneUpdate.t) (s : state) :
  let docs := phonenumber s in
  let docs' := phonenumber (update_phone item_id data s).2 in
  length docs' = length docs ∧
  (∀ i d d', docs !! i = Some d → docs' !! i = Some d' →
     d' !! "_id" = d !! "_id" ∧ d' !! "created_at" = d !! "created_at" ∧
     (d' ≠ d → ∃ mk o, ObjectId = Some mk ∧ mk item_id = Some o ∧ has_id o d)) ∧
  (∀ i j d1 d1' d2 d2',
     docs !! i = Some d1 → docs' !! i = Some d1' → d1' ≠ d1 →
     docs !! j = Some d2 → docs' !! j = Some d2' → d2' ≠ d2 → i = j).
Proof.
  intros docs docs'.
  destruct (update_phone_state item_id data s) as (_ & _ & [Hsame|(mk & o & Hmk & Hid & Hset)]).
  { unfold docs'. rewrite Hsame. fold docs. split; [done|]. split.
    - intros i d d' Hd Hd'. rewrite Hd in Hd'. by simplify_eq.
    - intros i j d1 d1' d2 d2' Hd1 Hd1' Hne. rewrite Hd1 in Hd1'. by simplify_eq. }
  unfold docs'. rewrite Hset. fold docs.
  destruct (update_first_spec (by_id o) (set_doc (clock s) data) docs)
    as [[_ ->]|(n & d0 & Hn & Hm & ->)]; simpl.
  { split; [done|]. split.
    - intros i d d' Hd Hd'. rewrite Hd in Hd'. by simplify_eq.
    - intros i j d1 d1' d2 d2' Hd1 Hd1' Hne. rewrite Hd1 in Hd1'. by simplify_eq. }
  apply by_id_iff in Hm.
  assert (Hother : ∀ i d d', i ≠ n → docs !! i = Some d →
            <[n := set_doc (clock s) data ∪ d0]> docs !! i = Some d' → d' = d).
  { intros i d d' Hne Hd Hd'. rewrite list_lookup_insert_ne in Hd' by done.
    rewrite Hd in Hd'. by simplify_eq. }
  split; [by rewrite length_insert|]. split.
  - intros i d d' Hd Hd'. destruct (decide (i = n)) as [->|Hne].
    + rewrite list_lookup_insert_eq in Hd' by (by eapply lookup_lt_Some).
      rewrite Hn in Hd. simplify_eq. split; [|split].
      * apply lookup_union_r. by apply set_doc_other; [compute_done|].
      * apply lookup_union_r. by apply set_doc_other; [compute_done|].
      * intros _. by exists mk, o.
    + rewrite (Hother i d d') by done. by repeat split.
  - intros i j d1 d1' d2 d2' Hd1 Hd1' Hne1 Hd2 Hd2' Hne2.
    destruct (decide (i = n)) as [->|Hi]; [|by destruct Hne1; eapply Hother].
    destruct (decide (j = n)) as [->|Hj]; [done|by destruct Hne2; eapply Hother].
Qed.


Lemma status_str_truthy (st : status) :
  truthy (Some (status_str st)) = Some (status_str st).
Proof. by destruct st. Qed.

(** The loop of [add_phones_bulk] never raises, and what it adds to the
    ids gathered so far does not depend on them. *)
Lemma bulk_loop_acc (items : list PhoneIn.t) (s : state) :
  ∃ ids s', ∀ inserted, bulk_loop items inserted s = (Ok (inserted ++ ids), s').
Proof.
  revert s. induction items as [|item rest IH]; intros s.
  - exists [], s. intros inserted. simpl. unfold ret. by rewrite app_nil_r.
  - simpl. unfold bind at 1, try.
    destruct ((validate item;; create_document item) s) as [[new_id|e] s0].
    + destruct (IH s0) as (ids & s' & Hrest). exists (new_id :: ids), s'.
      intros inserted. rewrite Hrest. by rewrite <- app_assoc.
    + destruct (IH s0) as (ids & s' & Hrest). by exists ids, s'.
Qed.

Lemma bulk_loop_app (pre post : list PhoneIn.t) (inserted : list string) (s : state) :
  bulk_loop (pre ++ post) inserted s =
    match bulk_loop pre inserted s with
    | (Ok ids, s') => bulk_loop post ids s'
    | (Raise e, s') => (Raise e, s')
    end.
Proof.
  revert inserted s. induction pre as [|item rest IH]; intros inserted s; [done|].
  simpl. unfold bind at 1 3, try.
  destruct ((validate item;; create_document item) s) as [[new_id|e] s0]; apply IH.
Qed.

(** X7: with the store handle established, a bulk create of a batch cut
    in two is the bulk create of the first part followed by the bulk
    create of the second part on the state the first leaves: same final
    state, and its ids are the ids of the first followed by the ids of
    the second.  The bulk create of no candidate returns no id and count
    0 and leaves the state as it was. *)
Theorem bulk_is_sequential (pre post : list PhoneIn.t) (s : state) :
  db s = true →
  add_phones_bulk (BulkPhones.mk []) s = (Ok (Inserted [] 0), s) ∧
  ∃ ids1 ids2 s1 s2,
    add_phones_bulk (BulkPhones.mk pre) s = (Ok (Inserted ids1 (length ids1)), s1) ∧
    add_phones_bulk (BulkPhones.mk post) s1 = (Ok (Inserted ids2 (length ids2)), s2) ∧
    add_phones_bulk (BulkPhones.mk (pre ++ post)) s =
      (Ok (Inserted (ids1 ++ ids2) (length ids1 + length ids2)), s2).
Proof.
  intros Hdb. split.
  { unfold add_phones_bulk. by rewrite entered. }
  destruct (bulk_loop_acc pre s) as (ids1 & s1 & Hpre).
  destruct (bulk_loop_acc post s1) as (ids2 & s2 & Hpost).
  assert (Hdb1 : db s1 = true).
  { destruct (bulk_loop_run pre [] s) as [cs Hrun].
    rewrite Hpre in Hrun. by simplify_eq. }
  exists ids1, ids2, s1, s2. unfold add_phones_bulk. simpl.
  rewrite !entered by done. unfold bind.
  rewrite bulk_loop_app, !Hpre, !Hpost. simpl.
  by rewrite length_app.
Qed.

(** X8: with the store handle established, the bulk create of one
    candidate is [add_phone] on it with its errors swallowed: when
    [add_phone] returns an id, the bulk create returns that id and count
    1, and when [add_phone] raises, the bulk create returns no id and
    count 0; in both cases it leaves the state [add_phone] leaves. *)
Theorem bulk_of_one_is_add_phone (item : PhoneIn.t) (s : state) :
  db s = true →
  match add_phone item s with
  | (Ok (Id new_id), s') =>
      add_phones_bulk (BulkPhones.mk [item]) s = (Ok (Inserted [new_id] 1), s')
  | (Ok _, _) => False
  | (Raise _, s') =>
      add_phones_bulk (BulkPhones.mk [item]) s = (Ok (Inserted [] 0), s')
  end.
Proof.
  intros Hdb. unfold add_phone, add_phones_bulk. rewrite !entered by done.
  simpl. unfold bind, try, ret.
  destruct (validate item s) as [[[]|e] s0]; [|done].
  by destruct (create_document item s0) as [[new_id|e] s1].
Qed.

Lemma stamp_lookup (k k' : string) (d : doc) :
  stamp k d !! k' =
    if decide (k = k') then
      match d !! k with
      | Some (VTime t) => Some (VStr (isoformat t))
      | v => v
      end
    else d !! k'.
Proof.
  unfold stamp. case_decide as Hk.
  - subst k'. destruct (d !! k) as [[]|] eqn:Hd; rewrite ?Hd; try done.
    by rewrite lookup_insert_eq.
  - destruct (d !! k) as [[]|]; try done. by rewrite lookup_insert_ne.
Qed.

(** What the loop body of [list_phones] makes of a record. *)
Lemma render_spec (d : doc) :
  render d !! "_id" = None ∧
  render d !! "id" = Some (VStr (py_str (default (VStr EmptyString) (d !! "_id")))) ∧
  (∀ t, render d !! "created_at" ≠ Some (VTime t)) ∧
  (∀ t, render d !! "updated_at" ≠ Some (VTime t)) ∧
  (∀ k, k ∉ rendered → render d !! k = d !! k).
Proof.
  unfold render. repeat split.
  - rewrite !stamp_lookup. simpl. rewrite lookup_insert_ne by done.
    by rewrite lookup_delete_eq.
  - rewrite !stamp_lookup. simpl. by rewrite lookup_insert_eq.
  - intros t. rewrite !stamp_lookup. simpl.
    rewrite lookup_insert_ne, lookup_delete_ne by done.
    by destruct (d !! "created_at") as [[]|].
  - intros t. rewrite !stamp_lookup. simpl.
    rewrite lookup_insert_ne, lookup_delete_ne by done.
    by destruct (d !! "updated_at") as [[]|].
  - intros k Hk. rewrite !stamp_lookup.
    assert (Hne : k ≠ "_id" ∧ k ≠ "id" ∧ k ≠ "created_at" ∧ k ≠ "updated_at").
    { repeat split; intros ->; apply Hk; compute_done. }
    destruct Hne as (H1 & H2 & H3 & H4).
    rewrite !decide_False by done.
    by rewrite lookup_insert_ne, lookup_delete_ne.
Qed.

(** X9: whatever the request, [list_phones] returns an error or items each
    of which is a stored record rewritten: without [_id], with [id] the
    string of the [_id] it had, with no timestamp left as a datetime
    under [created_at] or [updated_at], and with every other field as
    stored. *)
Theorem list_items_are_rendered (status q : option string) (limit : Z) (s : state) :
  match (list_phones status q limit s).1 with
  | Ok (Items items) =>
      Forall (λ item,
        ∃ d, d ∈ phonenumber s ∧
             item !! "_id" = None ∧
             item !! "id" = Some (VStr (py_str (default (VStr EmptyString) (d !! "_id")))) ∧
             (∀ t, item !! "created_at" ≠ Some (VTime t)) ∧
             (∀ t, item !! "updated_at" ≠ Some (VTime t)) ∧
             (∀ k, k ∉ rendered → item !! k = d !! k)) items
  | Ok _ => False
  | Raise _ => True
  end.
Proof.
  destruct (db s) eqn:Hdb; [|unfold list_phones; by rewrite guarded].
  unfold list_phones. rewrite entered by done. unfold bind, get_documents.
  destruct (query_valid (build_filter status q)) eqn:Hv.
  - rewrite find_run by done. simpl. apply Forall_fmap, Forall_forall.
    intros d Hd. exists d. split; [|apply render_spec].
    apply elem_of_take in Hd as (i & Hd & _).
    apply list_elem_of_lookup_2 in Hd.
    by apply list_elem_of_In, filter_In in Hd as [?%list_elem_of_In _].
  - unfold find. run. by rewrite Hv.
Qed.
Lemma build_filter_split (status q : option string) :
  build_filter status q = build_filter status None ++ build_filter None q.
Proof. unfold build_filter. simpl. by rewrite app_nil_r. Qed.

(** X10: the filter [list_phones] and [export_phones] build is the
    conjunction of its status part and of its text part.  The status part
    holds of exactly the records whose status is the string asked for,
    whatever that string, and it never makes the store reject the query;
    with neither a status nor a text, every record matches. *)
Theorem filter_is_conjunction (status q : option string) (d : doc) :
  matches (build_filter status q) d =
    matches (build_filter status None) d && matches (build_filter None q) d ∧
  query_valid (build_filter status q) = query_valid (build_filter None q) ∧
  (∀ st, truthy status = Some st →
     (matches (build_filter status None) d = true ↔ d !! "status" = Some (VStr st))) ∧
  (truthy status = None → truthy q = None → matches (build_filter status q) d = true).
Proof.
  split; [|split; [|split]].
  - rewrite build_filter_split. unfold matches. by rewrite forallb_app.
  - rewrite build_filter_split. unfold query_valid. rewrite forallb_app.
    unfold build_filter at 1. by destruct (truthy status).
  - intros st Hst. unfold build_filter, matches. rewrite Hst. simpl.
    rewrite andb_true_r. destruct (d !! "status") as [v|]; simpl.
    + rewrite bool_decide_eq_true. split; [by intros ->|by intros [= ->]].
    + by split.
  - intros Hst Hq. unfold build_filter. by rewrite Hst, Hq.
Qed.

(** X11: with the store handle established but [bson.ObjectId] not
    imported, [update_phone] and [delete_phone] raise the 500 "ObjectId
    not available" error whatever the id and the fields, before any call
    to the store: the state is as it was. *)
Theorem bson_missing_is_server_error (item_id : string) (s : state) :
  db s = true → ObjectId = None →
  (∀ data, update_phone item_id data s = (Raise bson_missing, s)) ∧
  delete_phone item_id s = (Raise bson_missing, s) ∧
  server_error (http_status (@Raise response bson_missing)) = true.
Proof.
  intros Hdb Hnone. repeat split.
  - intros data. unfold update_phone. rewrite entered by done.
    unfold bind, parse_id. by rewrite Hnone.
  - unfold delete_phone. rewrite entered by done.
    unfold bind, parse_id. by rewrite Hnone.
Qed.

Lemma find_state (flt : query) (limit : option Z) (s : state) :
  (find flt limit s).2 =
    mkState (db s) (phonenumber s) (clock s) (calls s ++ [Find flt limit]).
Proof. unfold find. run. by destruct (query_valid flt). Qed.

(** X12: whatever the request, [list_phones] and [export_phones] leave
    the store handle, the clock and the collection as they were, and make
    no call to the store or one call, the [find] on the filter they
    build: with the limit for [list_phones], without for
    [export_phones]. *)
Theorem reads_leave_collection (status q : option string) (limit : Z) (s : state) :
  let s1 := (list_phones status q limit s).2 in
  let s2 := (export_phones status q s).2 in
  (db s1 = db s ∧ clock s1 = clock s ∧ phonenumber s1 = phonenumber s ∧
   (calls s1 = calls s ∨
    calls s1 = calls s ++ [Find (build_filter status q) (Some limit)])) ∧
  (db s2 = db s ∧ clock s2 = clock s ∧ phonenumber s2 = phonenumber s ∧
   (calls s2 = calls s ∨
    calls s2 = calls s ++ [Find (build_filter status q) None])).
Proof.
  intros s1 s2. destruct (db s) eqn:Hdb.
  - assert (Hs1 : s1 = (find (build_filter status q) (Some limit) s).2).
    { unfold s1, list_phones. rewrite entered by done.
      unfold bind, get_documents.
      by destruct (find (build_filter status q) (Some limit) s) as [[docs|e] s']. }
    assert (Hs2 : s2 = (find (build_filter status q) None s).2).
    { unfold s2, export_phones. rewrite entered by done. unfold bind.
      by destruct (find (build_filter status q) None s) as [[docs|e] s']. }
    rewrite Hs1, Hs2, !find_state. simpl. repeat split; try done; by right.
  - unfold s1, s2, list_phones, export_phones. rewrite !guarded by done.
    simpl. repeat split; try done; by left.
Qed.

(** The cut [s[:n]] is a beginning of the text made of whole characters:
    at most [n] of them, all of the text when it has no more, and exactly
    [n] when something is left, which then starts a character. *)
Lemma take_points_spec (n : nat) (text : string) :
  ∃ rest,
    text = take_points n text +:+ rest ∧
    (points (take_points n text) ≤ n)%nat ∧
    ((points text ≤ n)%nat → rest = EmptyString) ∧
    (rest ≠ EmptyString →
       points (take_points n text) = n ∧
       ∃ c rest', rest = String c rest' ∧ continuation c = false).
Proof.
  revert n. induction text as [|c text IH]; intros n.
  - exists EmptyString. simpl. split; [done|]. split; [lia|]. by split.
  - simpl. destruct (continuation c) eqn:Hc.
    + destruct (IH n) as (rest & Heq & Hle & Hall & Hcut).
      exists rest. simpl. rewrite Hc, append_cons, <- Heq.
      repeat (split; [done|]). done.
    + destruct n as [|n].
      * exists (String c text). simpl. split; [done|]. split; [lia|].
        split; [lia|]. intros _. split; [done|]. by exists c, text.
      * destruct (IH n) as (rest & Heq & Hle & Hall & Hcut).
        exists rest. simpl. rewrite Hc, append_cons, <- Heq.
        split; [done|]. split; [lia|]. split.
        -- intros Hfew. apply Hall. lia.
        -- intros Hrest. destruct (Hcut Hrest) as [-> Hstart]. by split.
Qed.

(** A text of a hundred two-byte characters is cut to eighty of them. *)
Lemma cut_is_by_characters :
  take_points 80 (times 100 "é") = times 80 "é" ∧
  points (times 80 "é") = 80%nat ∧ String.length (times 80 "é") = 160%nat.
Proof. repeat split; vm_compute; reflexivity. Qed.

(** X13: [test_database] never raises and leaves the state as it was.  It
    reports "Connected" exactly when the store handle is established and
    listing the collections succeeds, and the names listed then are the
    collections of the report; otherwise it reports "Not Connected" and no
    collection.  When listing fails, the report shows, after its label, the
    first 80 characters of the text of the error: all of the text when it
    has no more than 80, and exactly 80 whole characters otherwise.  Each
    of the two environment variables is reported like one that is not set
    when it is set to the empty string. *)
Theorem diagnostics_never_fail
    (getenv : string → option string) (outcome : listing) (s : state) :
  ∃ r,
    test_database getenv outcome s = (Ok r, s) ∧
    (connection_status r = "Connected" ↔
       db s = true ∧ ∃ names, outcome = Listed names) ∧
    (connection_status r = "Connected" → outcome = Listed (collections r)) ∧
    (connection_status r ≠ "Connected" →
       connection_status r = "Not Connected" ∧ collections r = []) ∧
    (∀ text, db s = true → outcome = Failing text →
       ∃ shown rest,
         database r = "⚠️ Connected but Error: " +:+ shown ∧
         text = shown +:+ rest ∧
         (points shown ≤ 80)%nat ∧
         ((points text ≤ 80)%nat → shown = text) ∧
         (rest ≠ EmptyString →
            points shown = 80%nat ∧
            ∃ c rest', rest = String c rest' ∧ continuation c = false)) ∧
    (getenv "DATABASE_URL" = Some EmptyString ∨ getenv "DATABASE_URL" = None →
       database_url r = "❌ Not Set") ∧
    (getenv "DATABASE_NAME" = Some EmptyString ∨ getenv "DATABASE_NAME" = None →
       database_name r = "❌ Not Set") ∧
    (∀ c v, getenv "DATABASE_URL" = Some (String c v) → database_url r = "✅ Set") ∧
    (∀ c v, getenv "DATABASE_NAME" = Some (String c v) → database_name r = "✅ Set").
Proof.
  assert (Hunset : ∀ k, getenv k = Some EmptyString ∨ getenv k = None →
                        set_or_not (getenv k) = "❌ Not Set").
  { by intros k [-> | ->]. }
  assert (Hset : ∀ k c v, getenv k = Some (String c v) →
                          set_or_not (getenv k) = "✅ Set").
  { by intros k c v ->. }
  unfold test_database. run.
  destruct (db s) eqn:Hdb; [destruct outcome as [names|text]|];
    eexists; (split; [reflexivity|]); simpl;
    (split; [|split; [|split; [|split; [|split; [|split; [|split]]]]]]);
    try (by apply Hunset); try (by apply Hset).
  - split; [by eauto|done].
  - done.
  - by intros [].
  - by intros text.
  - split; [done|]. by intros (_ & names & ?).
  - done.
  - done.
  - intros text' _ [= <-].
    destruct (take_points_spec 80 text) as (rest & Heq & Hle & Hall & Hcut).
    exists (take_points 80 text), rest.
    split; [done|]. split; [done|]. split; [done|]. split; [|done].
    intros Hfew. rewrite (Hall Hfew) in Heq. by rewrite append_empty_r in Heq.
  - split; [done|]. by intros (? & _).
  - done.
  - done.
  - by intros text.
Qed.
Lemma add_phone_run (item : PhoneIn.t) (s : state) :
  db s = true → PhoneNumberSchema (model_dump item) = true →
  insert_fault (phonenumber s) (new_doc (clock s) item) = false →
  add_phone item s =
    (Ok (Id (oid_str (gen_oid (phonenumber s) (new_doc (clock s) item)))),
     mkState (db s)
       (phonenumber s ++
          [<["_id" := VOid (gen_oid (phonenumber s) (new_doc (clock s) item))]>
             (new_doc (clock s) item)])
       (clock s) (calls s ++ [InsertOne (new_doc (clock s) item)])).
Proof.
  intros Hdb Hv Hfault. unfold add_phone. rewrite entered by done.
  unfold bind at 1. rewrite validate_pass by done.
  unfold create_document. unfold bind at 1 2, now. unfold bind, ret.
  fold (new_doc (clock s) item). rewrite insert_one_run. simpl.
  by rewrite Hfault.
Qed.

Lemma delete_first_last (o : oid) (docs : list doc) (d : doc) :
  Forall (λ d', ¬ has_id o d') docs → has_id o d →
  delete_first (by_id o) (docs ++ [d]) = (docs, {| deleted_count := 1 |}).
Proof.
  intros Hnone Hd. induction Hnone as [|d' docs Hd' _ IH]; cbn [delete_first app].
  - by rewrite (proj2 (by_id_iff o d) Hd).
  - rewrite (proj2 (by_id_false o d') Hd'). by rewrite IH.
Qed.

(** X14: with the store handle established, a candidate the schema
    accepts and the store inserts, an identifier constructor that reads
    back the string of the new identifier, and no record with that
    identifier yet: [add_phone] returns the string of the identifier and
    adds the record at the end of the collection, and [delete_phone] on
    the id returned gives [{"deleted": 1}] and the collection as it was
    before the create. *)
Theorem create_then_delete
    (mk : string → option oid) (item : PhoneIn.t) (s : state) :
  db s = true → PhoneNumberSchema (model_dump item) = true →
  insert_fault (phonenumber s) (new_doc (clock s) item) = false →
  let o := gen_oid (phonenumber s) (new_doc (clock s) item) in
  ObjectId = Some mk → mk (oid_str o) = Some o →
  Forall (λ d, ¬ has_id o d) (phonenumber s) →
  (add_phone item s).1 = Ok (Id (oid_str o)) ∧
  phonenumber (add_phone item s).2 =
    phonenumber s ++ [<["_id" := VOid o]> (new_doc (clock s) item)] ∧
  (delete_phone (oid_str o) (add_phone item s).2).1 = Ok (Deleted 1) ∧
  phonenumber (delete_phone (oid_str o) (add_phone item s).2).2 = phonenumber s.
Proof.
  intros Hdb Hv Hfault o Hmk Hback Hfresh.
  rewrite add_phone_run by done. fold o. simpl.
  split; [done|]. split; [done|].
  rewrite (delete_phone_run mk _ o) by done. simpl.
  rewrite delete_first_last; [done|done|].
  unfold has_id. by rewrite lookup_insert_eq.
Qed.

Lemma new_doc_cells (o : oid) (t : Z) (item : PhoneIn.t) :
  row_cells (<["_id" := VOid o]> (new_doc t item)) = item_cells item.
Proof.
  unfold row_cells, item_cells, new_doc, model_dump, headers. simpl.
  repeat (rewrite lookup_insert_ne by done).
  rewrite lookup_insert_eq. simpl. f_equal.
  repeat (rewrite lookup_insert_ne by done).
  rewrite lookup_insert_eq. f_equal.
  { by destruct (PhoneIn.country item). }
  repeat (rewrite lookup_insert_ne by done).
  rewrite lookup_insert_eq. simpl. f_equal.
  repeat (rewrite lookup_insert_ne by done).
  rewrite lookup_insert_eq. f_equal.
  by destruct (PhoneIn.note item).
Qed.

(** X15: with the store handle established and a candidate the schema
    accepts and the store inserts, after [add_phone] the export filtered
    by the status of the candidate has a row whose four cells are the
    phone, the country, the status and the note of the candidate, a
    country or a note that was not given being empty. *)
Theorem create_then_export (item : PhoneIn.t) (s : state) :
  db s = true → PhoneNumberSchema (model_dump item) = true →
  insert_fault (phonenumber s) (new_doc (clock s) item) = false →
  ∃ rows,
    (export_phones (Some (status_str (PhoneIn.status item))) None
                   (add_phone item s).2).1 =
      Ok (Text (writerows (headers :: rows))) ∧
    item_cells item ∈ rows.
Proof.
  intros Hdb Hv Hfault. rewrite add_phone_run by done. simpl.
  set (o := gen_oid (phonenumber s) (new_doc (clock s) item)).
  set (d := <["_id" := VOid o]> (new_doc (clock s) item)).
  set (s1 := mkState (db s) (phonenumber s ++ [d]) (clock s)
                     (calls s ++ [InsertOne (new_doc (clock s) item)])).
  set (flt := build_filter (Some (status_str (PhoneIn.status item))) None).
  assert (Hflt : flt = [Field "status" (Eq (VStr (status_str (PhoneIn.status item))))]).
  { unfold flt, build_filter. by rewrite status_str_truthy. }
  exists (map row_cells (List.filter (matches flt) (phonenumber s1))). split.
  - unfold export_phones. rewrite entered by done.
    unfold bind. fold flt. by rewrite find_run by (by rewrite Hflt).
  - rewrite <- (new_doc_cells o (clock s) item). fold d.
    apply list_elem_of_fmap_2, list_elem_of_In, filter_In. split.
    + apply list_elem_of_In. simpl. apply elem_of_app. right. by left.
    + rewrite Hflt. unfold matches, d, new_doc, model_dump. simpl.
      repeat (rewrite lookup_insert_ne by done).
      rewrite lookup_insert_eq. by rewrite bool_decide_eq_true_2.
Qed.
Lemma status_part_selected (status : option string) (d : doc) :
  matches (build_filter status None) d =
    match asked status with
    | Some st => bool_decide (d !! "status" = Some (VStr st))
    | None => true
    end.
Proof.
  destruct status as [[|c st]|]; try done.
  unfold build_filter, matches. cbn [truthy app forallb clause_holds cond_holds asked].
  rewrite andb_true_r. destruct (d !! "status") as [v|].
  - apply bool_decide_ext. split; [by intros ->|by intros [= ->]].
  - by rewrite !bool_decide_eq_false_2.
Qed.

Lemma regex_holds_found (p : string) (d : doc) (k : string) :
  cond_holds (Regex p "i") (d !! k) = pattern_found p d k.
Proof.
  unfold cond_holds, pattern_found.
  by destruct (d !! k) as [[]|], (re_compile p "i").
Qed.

Lemma text_part_selected (q : option string) (d : doc) :
  matches (build_filter None q) d =
    match asked q with
    | Some p =>
        pattern_found p d "phone" || pattern_found p d "note" ||
        pattern_found p d "country"
    | None => true
    end.
Proof.
  destruct q as [[|c p]|]; try done.
  unfold build_filter, matches.
  cbn [truthy app forallb existsb clause_holds asked fst snd].
  rewrite !regex_holds_found.
  by rewrite !orb_false_r, andb_true_r, orb_assoc.
Qed.

Lemma matches_selected (status q : option string) (d : doc) :
  matches (build_filter status q) d = selected status q d.
Proof.
  rewrite build_filter_split. unfold matches, selected. rewrite forallb_app.
  fold (matches (build_filter status None) d).
  fold (matches (build_filter None q) d).
  by rewrite status_part_selected, text_part_selected.
Qed.

Lemma valid_accepted (status q : option string) :
  query_valid (build_filter status q) = pattern_accepted q.
Proof.
  rewrite build_filter_split. unfold query_valid. rewrite forallb_app.
  assert (Hstatus : forallb clause_valid (build_filter status None) = true)
    by (by destruct status as [[|c st]|]).
  rewrite Hstatus. unfold pattern_accepted.
  destruct q as [[|c p]|]; try done.
  unfold build_filter.
  cbn [truthy app forallb clause_valid cond_valid asked fst snd andb].
  by destruct (re_compile (String c p) "i").
Qed.

Lemma row_cells_cells (d : doc) : row_cells d = cells d.
Proof.
  assert (Hcell : ∀ k, csv_cell (default (VStr EmptyString) (d !! k)) = cell d k).
  { intros k. unfold cell. by destruct (d !! k) as [[]|]. }
  unfold row_cells, cells, headers. simpl. by rewrite !Hcell.
Qed.

Lemma find_rejected (flt : query) (limit : option Z) (s : state) :
  query_valid flt = false →
  find flt limit s =
    (Raise OperationFailure,
     mkState (db s) (phonenumber s) (clock s) (calls s ++ [Find flt limit])).
Proof. intros Hv. unfold find. run. by rewrite Hv. Qed.

(** X16: with the store handle established, [export_phones] raises the
    error of the store, answered with a 500, when the store does not take
    the text asked for as a pattern.  Otherwise the text it returns reads
    as CSV: the record phone, country, status, note, followed, in the
    order of the store and without a limit, by one record of four cells
    for each record of the collection whose status is the status asked
    for and in whose phone, note or country the store finds the pattern;
    a cell is the string of the field, and is empty for a field that is
    missing or null. *)
Theorem export_returns_csv (status q : option string) (s : state) :
  db s = true →
  (pattern_accepted q = false →
   (export_phones status q s).1 = Raise OperationFailure) ∧
  (pattern_accepted q = true →
   ∃ body,
     (export_phones status q s).1 = Ok (Text body) ∧
     (∃ rest, body = "phone,country,status,note" +:+ lineterminator +:+ rest) ∧
     read_csv body =
       Some (["phone"; "country"; "status"; "note"] ::
             map cells (List.filter (selected status q) (phonenumber s)))).
Proof.
  intros Hdb. split; intros Hq.
  - unfold export_phones. rewrite entered by done. unfold bind.
    by rewrite find_rejected by (by rewrite valid_accepted).
  - exists (writerows (headers :: map row_cells
              (List.filter (matches (build_filter status q)) (phonenumber s)))).
    split; [|split].
    + unfold export_phones. rewrite entered by done. unfold bind.
      by rewrite find_run by (by rewrite valid_accepted).
    + by eexists.
    + rewrite read_writerows.
      * f_equal. f_equal.
        rewrite (filter_ext _ _ (matches_selected status q)).
        apply map_ext. intros d. apply row_cells_cells.
      * constructor; [done|]. apply Forall_fmap, Forall_forall. by intros r _.
Qed.
End Further.

(** ** The fragment on plain patterns *)

Section FragmentFacts.
Lemma parse_plain (q : string) :
  plain q = true → Fragment.parse q = Some (Fragment.literal q).
Proof.
  induction q as [|c q IH]; [done|]. simpl. intros Hq.
  apply andb_true_iff in Hq as [Hc Hq].
  destruct (Ascii.eqb c ".") eqn:Hdot.
  - apply Ascii.eqb_eq in Hdot as ->. done.
  - apply negb_true_iff in Hc. rewrite Hc, IH by done. done.
Qed.

Lemma at_start_literal (q s : string) :
  Fragment.at_start true (Fragment.literal q) s = prefix_ci q s.
Proof.
  revert s. induction q as [|c q IH]; intros s; [done|].
  destruct s as [|a s]; [done|]. simpl. by rewrite IH.
Qed.

Lemma search_literal (q s : string) :
  Fragment.search_atoms true (Fragment.literal q) s = contains_ci q s.
Proof.
  induction s as [|a s IH]; simpl; rewrite at_start_literal; [done|].
  by rewrite IH.
Qed.

(** The fragment takes a plain pattern, with the option [i], for a
    case-insensitive substring search. *)
Lemma fragment_plain (q : string) :
  plain q = true →
  ∃ r, Fragment.compile q "i" = Some r ∧
       ∀ s, Fragment.search r s = contains_ci q s.
Proof.
  intros Hq. exists (Fragment.mk (Fragment.literal q) true). split.
  - unfold Fragment.compile. by rewrite parse_plain.
  - intros s. apply search_literal.
Qed.
End FragmentFacts.

(** * The handlers on the sample environment *)

Section Runs.
Import Sample.

(** C5: the query is handed to the store as a regular expression, not
    as a text to look for.  The record whose phone is 5551234 holds no dot
    in its phone, note or country, and yet it matches the filter built for
    the query [.], and is listed and exported for it.  The record whose
    phone is +15551234 holds the text [+1] in its phone, and the list and
    export requests for the query [+1] raise the error of the store,
    answered with a 500. *)
Theorem regex_query_is_not_substring :
  (text_match "." (record 1 "5551234" None) = false ∧
   matches (build_filter None (Some ".")) (record 1 "5551234" None) = true ∧
   (list_phones None (Some ".") 500 (holding [record 1 "5551234" None])).1 =
     Ok (Items [render (record 1 "5551234" None)]) ∧
   (export_phones None (Some ".") (holding [record 1 "5551234" None])).1 =
     Ok (Text ("phone,country,status,note" +:+ lineterminator +:+
               "5551234,,unknown," +:+ lineterminator))) ∧
  (text_match "+1" (record 1 "+15551234" None) = true ∧
   (list_phones None (Some "+1") 500 (holding [record 1 "+15551234" None])).1 =
     Raise OperationFailure ∧
   (export_phones None (Some "+1") (holding [record 1 "+15551234" None])).1 =
     Raise OperationFailure ∧
   http_status (@Raise response OperationFailure) = 500%Z).
Proof. repeat split; by vm_compute. Qed.

(** C7: an export does not always answer with the CSV of the records
    that match.  The record whose phone is +15551234 has the status
    unknown and holds the text [+1] in its phone, and the export for the
    status unknown and the query [+1] raises the error of the store,
    answered with a 500, after its one call to the store: there is no CSV
    at all.  The record whose phone is 5551234 holds no dot in its phone,
    note or country, and the export for the query [.] has a data row for
    it. *)
Theorem export_is_not_always_csv :
  (text_match "+1" (record 1 "+15551234" None) = true ∧
   record 1 "+15551234" None !! "status" = Some (VStr "unknown") ∧
   export_phones (Some "unknown") (Some "+1") (holding [record 1 "+15551234" None]) =
     (Raise OperationFailure,
      mkState true [record 1 "+15551234" None] 1700000000
              [Find (build_filter (Some "unknown") (Some "+1")) None]) ∧
   server_error (http_status (@Raise response OperationFailure)) = true) ∧
  (text_match "." (record 1 "5551234" None) = false ∧
   (export_phones (Some "unknown") (Some ".") (holding [record 1 "5551234" None])).1 =
     Ok (Text ("phone,country,status,note" +:+ lineterminator +:+
               "5551234,,unknown," +:+ lineterminator)) ∧
   read_csv ("phone,country,status,note" +:+ lineterminator +:+
             "5551234,,unknown," +:+ lineterminator) =
     Some [["phone"; "country"; "status"; "note"];
           ["5551234"; EmptyString; "unknown"; EmptyString]]).
Proof.
  split; [split; [|split; [|split]]|split; [|split]]; vm_compute; reflexivity.
Qed.

(** On the query 555, a plain text, the filter finds the record whose
    phone is 555-1234 and the record whose note holds 555, and not a record
    that holds it nowhere. *)
Lemma plain_query_555 :
  (list_phones None (Some "555") 500
     (holding [record 1 "555-1234" None; record 2 "777" (Some "call 555, now");
               record 3 "888" None])).1 =
    Ok (Items [render (record 1 "555-1234" None);
               render (record 2 "777" (Some "call 555, now"))]).
Proof. by vm_compute. Qed.

(** A PATCH whose body is a status and a [null] note, on the record whose
    note is a text: the status is written and the note is kept. *)
Lemma null_note_is_kept :
  let body := PatchBody.mk Absent Absent (Given has_fb) Null in
  let before := record 1 "777" (Some "call 555, now") in
  ∃ d, phonenumber (after (patch_phone first_id body) (holding [before])) = [d] ∧
       d !! "note" = Some (VStr "call 555, now") ∧
       d !! "status" = Some (VStr "has_fb") ∧
       d !! "updated_at" = Some (VTime 1700000000).
Proof.
  intros body before.
  exists (<["updated_at" := VTime 1700000000]> (<["status" := VStr "has_fb"]> before)).
  split; [vm_compute; reflexivity|].
  split; [|split]; vm_compute; reflexivity.
Qed.

Lemma bulk_create_is_best_effort_witness :
  db empty = true ∧
  ∃ s', add_phones_bulk batch empty =
          (Ok (Inserted [first_id; "000000000000000000000002"] 2), s') ∧
        length (phonenumber s') = 2%nat.
Proof.
  split; [reflexivity|].
  destruct (bulk_create_is_best_effort batch empty eq_refl)
    as (ids & s' & Hrun & _ & Hids & Hcoll & _).
  exists s'. split.
  - rewrite Hrun, Hids. reflexivity.
  - rewrite Hcoll. reflexivity.
Defined.

Lemma empty_update_is_noop_witness :
  db stocked = true ∧ ObjectId = Some object_id ∧
  object_id first_id = Some 1%N ∧
  fields_set (PhoneUpdate.mk None None None None) = [] ∧
  update_phone first_id (PhoneUpdate.mk None None None None) stocked =
    (Ok (Updated 0), stocked).
Proof.
  repeat (split; [reflexivity|]).
  exact (proj1 (empty_update_is_noop object_id first_id 1%N
                  (PhoneUpdate.mk None None None None) stocked
                  eq_refl eq_refl eq_refl eq_refl)).
Defined.

Lemma malformed_id_is_client_error_witness :
  db stocked = true ∧ ObjectId = Some object_id ∧
  object_id "not-an-id" = None ∧
  delete_phone "not-an-id" stocked = (Raise invalid_id, stocked).
Proof.
  repeat (split; [reflexivity|]).
  exact (proj1 (proj2 (malformed_id_is_client_error object_id "not-an-id" stocked
                         eq_refl eq_refl eq_refl))).
Defined.

Lemma single_create_validation_surfaces_witness :
  db empty = true ∧
  PhoneNumberSchema (model_dump (item EmptyString None)) = false ∧
  add_phone (item EmptyString None) empty = (Raise ValidationError, empty).
Proof.
  repeat (split; [reflexivity|]).
  exact (proj1 (proj1 (single_create_validation_surfaces (item EmptyString None) empty
                         eq_refl) eq_refl)).
Defined.

Lemma update_sets_updated_at_witness :
  db stocked = true ∧ ObjectId = Some object_id ∧
  object_id first_id = Some 1%N ∧
  fields_set (PhoneUpdate.mk None None (Some has_fb) None) ≠ [] ∧
  (update_phone first_id (PhoneUpdate.mk None None (Some has_fb) None) stocked).1 =
    Ok (Updated 1).
Proof.
  repeat (split; [reflexivity|]).
  assert (Hset : fields_set (PhoneUpdate.mk None None (Some has_fb) None) ≠ [])
    by discriminate.
  split; [exact Hset|].
  rewrite (proj1 (@update_sets_updated_at env object_id first_id 1%N
                    (PhoneUpdate.mk None None (Some has_fb) None) stocked
                    eq_refl eq_refl eq_refl Hset)).
  reflexivity.
Defined.

Lemma store_unavailable_witness :
  db down = false ∧
  (∀ payload, add_phones_bulk payload down = (Raise unavailable, down)) ∧
  (∀ status q, export_phones status q down = (Raise unavailable, down)).
Proof.
  split; [reflexivity|].
  destruct (store_unavailable down eq_refl) as (_ & _ & Hbulk & _ & _ & Hexport & _).
  exact (conj Hbulk Hexport).
Defined.
End Runs.

(** * Further runs on the sample environment *)

Section FurtherRuns.
Import Sample.

Lemma delete_removes_first_match_witness :
  db two_records = true ∧ ObjectId = Some object_id ∧
  object_id second_id = Some 2%N ∧
  delete_phone second_id two_records =
    (Ok (Deleted 1),
     mkState true [record 1%N "555-1234" None] 1700000000 [DeleteOne (by_id 2%N)]).
Proof.
  repeat (split; [reflexivity|]).
  destruct (@delete_removes_first_match env object_id second_id 2%N two_records
              eq_refl eq_refl eq_refl)
    as [[Hnone _]|(i & d & Hi & Hd & Hbefore & Hrun)].
  - exfalso. apply Forall_inv_tail, Forall_inv in Hnone. by apply Hnone.
  - destruct i as [|[|i]]; [|exact Hrun|discriminate Hi].
    exfalso. injection Hi as <-. discriminate Hd.
Defined.

Lemma delete_then_gone_witness :
  db two_records = true ∧ ObjectId = Some object_id ∧
  object_id first_id = Some 1%N ∧
  at_most_one 1%N (phonenumber two_records) ∧
  (delete_phone first_id (delete_phone first_id two_records).2).1 = Ok (Deleted 0).
Proof.
  repeat (split; [reflexivity|]).
  assert (Huniq : at_most_one 1%N (phonenumber two_records)).
  { intros i j d d' Hi Hj Hd Hd'.
    destruct i as [|[|i]]; [|injection Hi as <-; discriminate Hd|discriminate Hi].
    destruct j as [|[|j]]; [reflexivity|injection Hj as <-; discriminate Hd'|discriminate Hj]. }
  split; [exact Huniq|].
  exact (proj1 (proj2 (@delete_then_gone env object_id first_id 1%N two_records
                         eq_refl eq_refl eq_refl Huniq))).
Defined.

Lemma update_unknown_id_witness :
  db two_records = true ∧ ObjectId = Some object_id ∧
  object_id unknown_id = Some 9%N ∧
  fields_set (PhoneUpdate.mk None None (Some has_fb) None) ≠ [] ∧
  Forall (λ d, ¬ has_id 9%N d) (phonenumber two_records) ∧
  (update_phone unknown_id (PhoneUpdate.mk None None (Some has_fb) None) two_records).1 =
    Ok (Updated 0).
Proof.
  repeat (split; [reflexivity|]).
  assert (Hset : fields_set (PhoneUpdate.mk None None (Some has_fb) None) ≠ [])
    by discriminate.
  assert (Hnone : Forall (λ d, ¬ has_id 9%N d) (phonenumber two_records)).
  { repeat (apply Forall_cons; split;
              [intros Hd; vm_compute in Hd; discriminate Hd|]).
    constructor. }
  split; [exact Hset|]. split; [exact Hnone|].
  exact (f_equal fst (@update_unknown_id env object_id unknown_id 9%N
                        (PhoneUpdate.mk None None (Some has_fb) None) two_records
                        eq_refl eq_refl eq_refl Hset Hnone)).
Defined.

Lemma update_known_id_modifies_witness :
  db two_records = true ∧ ObjectId = Some object_id ∧
  object_id first_id = Some 1%N ∧
  fields_set (PhoneUpdate.mk None None (Some unknown) None) ≠ [] ∧
  Exists (has_id 1%N) (phonenumber two_records) ∧
  Forall (λ d, has_id 1%N d → d !! "updated_at" ≠ Some (VTime (clock two_records)))
         (phonenumber two_records) ∧
  (update_phone first_id (PhoneUpdate.mk None None (Some unknown) None) two_records).1 =
    Ok (Updated 1).
Proof.
  repeat (split; [reflexivity|]).
  assert (Hset : fields_set (PhoneUpdate.mk None None (Some unknown) None) ≠ [])
    by discriminate.
  assert (Hex : Exists (has_id 1%N) (phonenumber two_records))
    by (apply Exists_cons_hd; reflexivity).
  assert (Hstale : Forall (λ d, has_id 1%N d →
                      d !! "updated_at" ≠ Some (VTime (clock two_records)))
                     (phonenumber two_records)).
  { repeat (apply Forall_cons; split;
              [intros _ Hd; vm_compute in Hd; discriminate Hd|]).
    constructor. }
  split; [exact Hset|]. split; [exact Hex|]. split; [exact Hstale|].
  exact (@update_known_id_modifies env object_id first_id 1%N
           (PhoneUpdate.mk None None (Some unknown) None) two_records
           eq_refl eq_refl eq_refl Hset Hex Hstale).
Defined.


Lemma bulk_is_sequential_witness :
  db empty = true ∧
  ∃ ids1 ids2 s1 s2,
    add_phones_bulk (BulkPhones.mk [item "555-1234" None; item EmptyString None]) empty =
      (Ok (Inserted ids1 (length ids1)), s1) ∧
    add_phones_bulk (BulkPhones.mk [item "777" None]) s1 =
      (Ok (Inserted ids2 (length ids2)), s2) ∧
    add_phones_bulk
      (BulkPhones.mk ([item "555-1234" None; item EmptyString None] ++ [item "777" None]))
      empty =
      (Ok (Inserted (ids1 ++ ids2) (length ids1 + length ids2)), s2).
Proof.
  split; [reflexivity|].
  exact (proj2 (@bulk_is_sequential env
                  [item "555-1234" None; item EmptyString None] [item "777" None]
                  empty eq_refl)).
Defined.

Lemma bulk_of_one_is_add_phone_witness :
  db empty = true ∧
  match add_phone (item EmptyString None) empty with
  | (Ok (Id new_id), s') =>
      add_phones_bulk (BulkPhones.mk [item EmptyString None]) empty =
        (Ok (Inserted [new_id] 1), s')
  | (Ok _, _) => False
  | (Raise _, s') =>
      add_phones_bulk (BulkPhones.mk [item EmptyString None]) empty =
        (Ok (Inserted [] 0), s')
  end.
Proof.
  split; [reflexivity|].
  exact (@bulk_of_one_is_add_phone env (item EmptyString None) empty eq_refl).
Defined.

Lemma bson_missing_is_server_error_witness :
  db two_records = true ∧ @ObjectId no_bson = None ∧
  @delete_phone no_bson first_id two_records = (Raise bson_missing, two_records).
Proof.
  repeat (split; [reflexivity|]).
  exact (proj1 (proj2 (@bson_missing_is_server_error no_bson first_id two_records
                         eq_refl eq_refl))).
Defined.
Lemma create_then_delete_witness :
  db two_records = true ∧
  PhoneNumberSchema (model_dump (item "888" None)) = true ∧
  insert_fault (phonenumber two_records) (new_doc (clock two_records) (item "888" None)) = false ∧
  ObjectId = Some object_id ∧
  object_id (oid_str 3%N) = Some 3%N ∧
  Forall (λ d, ¬ has_id 3%N d) (phonenumber two_records) ∧
  phonenumber (delete_phone (oid_str 3%N) (add_phone (item "888" None) two_records).2).2 =
    phonenumber two_records.
Proof.
  repeat (split; [reflexivity|]).
  assert (Hfresh : Forall (λ d, ¬ has_id 3%N d) (phonenumber two_records)).
  { repeat (apply Forall_cons; split;
              [intros Hd; vm_compute in Hd; discriminate Hd|]).
    constructor. }
  split; [exact Hfresh|].
  exact (proj2 (proj2 (proj2 (@create_then_delete env object_id (item "888" None)
                                two_records eq_refl eq_refl eq_refl
                                eq_refl eq_refl Hfresh)))).
Defined.

Lemma create_then_export_witness :
  db two_records = true ∧
  PhoneNumberSchema (model_dump (item "888" None)) = true ∧
  insert_fault (phonenumber two_records) (new_doc (clock two_records) (item "888" None)) = false ∧
  ∃ rows,
    (export_phones (Some "unknown") None (add_phone (item "888" None) two_records).2).1 =
      Ok (Text (writerows (headers :: rows))) ∧
    ["888"; EmptyString; "unknown"; EmptyString] ∈ rows.
Proof.
  repeat (split; [reflexivity|]).
  exact (@create_then_export env (item "888" None) two_records
           eq_refl eq_refl eq_refl).
Defined.
Lemma export_returns_csv_witness :
  db two_records = true ∧
  ∃ body,
    (export_phones (Some "unknown") (Some "555") two_records).1 = Ok (Text body) ∧
    read_csv body =
      Some [["phone"; "country"; "status"; "note"];
            ["555-1234"; EmptyString; "unknown"; EmptyString];
            ["777"; EmptyString; "unknown"; "call 555, now"]].
Proof.
  split; [reflexivity|].
  destruct (proj2 (@export_returns_csv env (Some "unknown") (Some "555") two_records
                     eq_refl) eq_refl)
    as (body & Hrun & _ & Hread).
  exists body. split; [exact Hrun|].
  rewrite Hread. vm_compute. reflexivity.
Defined.
End FurtherRuns.
